(** * cap: the natural-language query pipeline (src/cap/api/nl_query.py)

    A shallow embedding of the injection evaluator, the legacy plan parser,
    the sequential executor and the response stream of [nl_query.py],
    followed by the properties the specification states about them.

    Conventions of the embedding.
    - Python [str] values are Rocq [string]s, read as sequences of code
      points below 256 (Latin-1); the character classes of [re] and of
      [str.strip] are written out for that range.
    - Python [int] is [Z]; Python [float] is the IEEE model [spec_float] of
      the Standard Library.
    - A call that may raise returns a [py_result]; [try]/[except] is a match
      on it.
    - A [dict] whose iteration order the code depends on is an association
      list in insertion order.
    - Calls to the logger change nothing of what a function returns and
      are left out, except where building the message can raise inside a
      [try]: the conversion of an [int] to decimal is refused with
      [ValueError] over 4300 digits.  The integers the executor binds come
      from [float] and have at most 309 digits. *)

From Stdlib Require Import ZArith List Bool Ascii String Lia.
From Stdlib Require Import DecimalString SpecFloat.
Import ListNotations.

Open Scope bool_scope.
Open Scope string_scope.
Open Scope list_scope.

(** ** Characters *)

Definition code (c : ascii) : N := N_of_ascii c.

Definition between (lo hi : N) (c : ascii) : bool :=
  (N.leb lo (code c) && N.leb (code c) hi)%N.

Definition is_digit (c : ascii) : bool := between 48 57 c.

Definition is_ascii_letter (c : ascii) : bool :=
  between 65 90 c || between 97 122 c.

Definition is_underscore (c : ascii) : bool := N.eqb (code c) 95.

(** [[a-zA-Z_]] and [[a-zA-Z0-9_]]. *)
Definition ident_start (c : ascii) : bool := is_ascii_letter c || is_underscore c.
Definition ident_part (c : ascii) : bool := ident_start c || is_digit c.

(** [\w] of a [str] pattern: alphanumeric code points and the underscore. *)
Definition is_word (c : ascii) : bool :=
  ident_part c
  || N.eqb (code c) 170 || between 178 179 c || N.eqb (code c) 181
  || between 185 186 c || between 188 190 c
  || between 192 214 c || between 216 246 c || between 248 255 c.

(** What [str.strip()] removes. *)
Definition is_space (c : ascii) : bool :=
  between 9 13 c || between 28 32 c || N.eqb (code c) 133 || N.eqb (code c) 160.

Definition newline : ascii := "010"%char.

(** ** Strings *)

Definition chars (s : string) : list ascii := list_ascii_of_string s.
Definition text (l : list ascii) : string := string_of_list_ascii l.

(** [str(n)] for an [int]. *)
Definition str_of_int (n : Z) : string := NilZero.string_of_int (Z.to_int n).

Fixpoint strip_prefix (p s : list ascii) : option (list ascii) :=
  match p, s with
  | [], _ => Some s
  | a :: p', b :: s' => if Ascii.eqb a b then strip_prefix p' s' else None
  | _ :: _, [] => None
  end.

Fixpoint contains (p s : list ascii) : bool :=
  match strip_prefix p s with
  | Some _ => true
  | None => match s with [] => false | _ :: s' => contains p s' end
  end.

(** [sub in s]. *)
Definition str_in (sub s : string) : bool := contains (chars sub) (chars s).

(** [s.startswith(p)]. *)
Definition str_startswith (s p : string) : bool :=
  match strip_prefix (chars p) (chars s) with Some _ => true | None => false end.

(** [str.replace] for a non-empty [old]: [skip] counts the characters of a
    replaced occurrence still to be dropped; [count] is the number of
    replacements left ([None]: no limit). *)
Fixpoint replace_scan (old new : list ascii) (count : option nat) (skip : nat)
  (s : list ascii) : list ascii :=
  match s with
  | [] => []
  | c :: s' =>
      match skip with
      | S k => replace_scan old new count k s'
      | O =>
          match count, strip_prefix old s with
          | Some O, _ | _, None => c :: replace_scan old new count 0 s'
          | _, Some _ =>
              new ++ replace_scan old new (option_map Nat.pred count)
                       (Nat.pred (List.length old)) s'
          end
      end
  end.

(** [str.replace] for the empty [old]: [new] goes before every character
    and at the end, as long as [count] allows. *)
Fixpoint replace_empty (new : list ascii) (count : option nat) (s : list ascii)
  : list ascii :=
  match count with
  | Some O => s
  | _ =>
      match s with
      | [] => new
      | c :: s' => new ++ c :: replace_empty new (option_map Nat.pred count) s'
      end
  end.

Definition replace_chars (old new : list ascii) (count : option nat)
  (s : list ascii) : list ascii :=
  match old with
  | [] => replace_empty new count s
  | _ :: _ => replace_scan old new count 0 s
  end.

(** [s.replace(old, new)] and [s.replace(old, new, 1)]. *)
Definition str_replace (s old new : string) : string :=
  text (replace_chars (chars old) (chars new) None (chars s)).
Definition str_replace_first (s old new : string) : string :=
  text (replace_chars (chars old) (chars new) (Some 1%nat) (chars s)).

Fixpoint lstrip (s : list ascii) : list ascii :=
  match s with
  | c :: s' => if is_space c then lstrip s' else s
  | [] => []
  end.

(** [s.strip()]. *)
Definition str_strip (s : string) : string :=
  text (rev (lstrip (rev (lstrip (chars s))))).

(** ** Regular expressions

    The patterns of the code, as terms, with the matching discipline of
    [re]: backtracking, leftmost, greedy.  The matcher is written in
    continuation-passing style; it carries the character before the current
    position (for [^] and [\b]) and the text of the capturing group. *)

Inductive regex : Type :=
| Eps
| Chr (c : ascii)
| Cls (p : ascii -> bool)
| Cat (r1 r2 : regex)
| Alt (r1 r2 : regex)
| Star (r : regex)
| Grp (r : regex)
| Bol
| Eol
| Wordb.

Definition capture := option (list ascii).
Definition answer : Type := list ascii * capture.
Definition cont : Type := option ascii -> list ascii -> capture -> option answer.

Definition word_at (c : option ascii) : bool :=
  match c with Some x => is_word x | None => false end.

Fixpoint rx (r : regex) (k : cont) (prev : option ascii) (s : list ascii)
  (cap : capture) {struct r} : option answer :=
  match r with
  | Eps => k prev s cap
  | Chr c =>
      match s with
      | x :: s' => if Ascii.eqb x c then k (Some x) s' cap else None
      | [] => None
      end
  | Cls p =>
      match s with
      | x :: s' => if p x then k (Some x) s' cap else None
      | [] => None
      end
  | Cat r1 r2 => rx r1 (rx r2 k) prev s cap
  | Alt r1 r2 =>
      match rx r1 k prev s cap with
      | Some a => Some a
      | None => rx r2 k prev s cap
      end
  | Star r1 =>
      (fix loop (fuel : nat) (prev : option ascii) (s : list ascii)
         (cap : capture) {struct fuel} : option answer :=
         match fuel with
         | O => k prev s cap
         | S fuel' =>
             match
               rx r1
                 (fun prev' s' cap' =>
                    if Nat.ltb (List.length s') (List.length s)
                    then loop fuel' prev' s' cap' else None)
                 prev s cap
             with
             | Some a => Some a
             | None => k prev s cap
             end
         end) (List.length s) prev s cap
  | Grp r1 =>
      rx r1
        (fun prev' s' _ =>
           k prev' s' (Some (firstn (List.length s - List.length s') s)))
        prev s cap
  | Bol => match prev with None => k prev s cap | Some _ => None end
  | Eol =>
      match s with
      | [] => k prev s cap
      | [c] => if Ascii.eqb c newline then k prev s cap else None
      | _ => None
      end
  | Wordb =>
      if xorb (word_at prev) (word_at (hd_error s)) then k prev s cap else None
  end.

(** One match attempt at the current position. *)
Definition match_here (r : regex) (prev : option ascii) (s : list ascii)
  : option answer :=
  rx r (fun _ rest cap => Some (rest, cap)) prev s None.

(** A match found by scanning: the text skipped before it, the matched
    text, the rest of the input and the captured group. *)
Record found : Type := mkFound {
  before : list ascii;
  matched : list ascii;
  after : list ascii;
  group1 : capture
}.

(** [skipped] holds, in reverse, the characters already passed over. *)
Fixpoint search_from (r : regex) (prev : option ascii) (skipped : list ascii)
  (s : list ascii) {struct s} : option found :=
  match match_here r prev s with
  | Some (rest, cap) =>
      Some (mkFound (rev skipped)
              (firstn (List.length s - List.length rest) s) rest cap)
  | None =>
      match s with
      | [] => None
      | c :: s' => search_from r (Some c) (c :: skipped) s'
      end
  end.

(** All non-overlapping matches, left to right, and the text after the last
    one.  After an empty match the scan steps over one character. *)
Fixpoint scan (r : regex) (fuel : nat) (prev : option ascii)
  (skipped : list ascii) (s : list ascii) : list found * list ascii :=
  match fuel with
  | O => ([], rev skipped ++ s)
  | S fuel' =>
      match search_from r prev skipped s with
      | None => ([], rev skipped ++ s)
      | Some f =>
          match matched f, after f with
          | [], [] => ([f], [])
          | [], c :: rest =>
              let '(fs, tl) := scan r fuel' (Some c) [c] rest in (f :: fs, tl)
          | _ :: _, rest =>
              let '(fs, tl) :=
                scan r fuel' (Some (last (matched f) newline)) [] rest in
              (f :: fs, tl)
          end
      end
  end.

Definition scan_all (r : regex) (s : string) : list found * list ascii :=
  scan r (S (String.length s)) None [] (chars s).

(** [re.search(r, s)]. *)
Definition re_search (r : regex) (s : string) : option found :=
  search_from r None [] (chars s).

(** [m.group(0)] and [m.group(1)]. *)
Definition group0 (f : found) : string := text (matched f).
Definition group_1 (f : found) : string :=
  match group1 f with Some g => text g | None => EmptyString end.

(** [re.findall(r, s)] for a pattern without a group, and with one group. *)
Definition re_findall (r : regex) (s : string) : list string :=
  map group0 (fst (scan_all r s)).
Definition re_findall_group (r : regex) (s : string) : list string :=
  map group_1 (fst (scan_all r s)).

(** [re.split(r, s)] for a pattern without a group. *)
Definition re_split (r : regex) (s : string) : list string :=
  let '(fs, tl) := scan_all r s in
  map (fun f => text (before f)) fs ++ [text tl].

(** [re.sub(r, r'\1', s)]. *)
Definition re_sub_group (r : regex) (s : string) : string :=
  let '(fs, tl) := scan_all r s in
  text (flat_map (fun f => before f ++ chars (group_1 f)) fs ++ tl).

(** Pattern combinators. *)
Fixpoint lit_chars (l : list ascii) : regex :=
  match l with
  | [] => Eps
  | [c] => Chr c
  | c :: l' => Cat (Chr c) (lit_chars l')
  end.
Definition lit (s : string) : regex := lit_chars (chars s).
Definition plus (r : regex) : regex := Cat r (Star r).
Definition opt (r : regex) : regex := Alt r Eps.
Fixpoint seq (rs : list regex) : regex :=
  match rs with
  | [] => Eps
  | [r] => r
  | r :: rs' => Cat r (seq rs')
  end.

Definition any_but_newline (c : ascii) : bool := negb (Ascii.eqb c newline).
Definition not_rparen (c : ascii) : bool := negb (Ascii.eqb c ")").
Definition not_paren (c : ascii) : bool :=
  negb (Ascii.eqb c "(") && negb (Ascii.eqb c ")").
Definition not_dash (c : ascii) : bool := negb (Ascii.eqb c "-").

(** [evaluate\(([^)]+)\)] *)
Definition evaluate_inner_pattern : regex :=
  seq [lit "evaluate("; Grp (plus (Cls not_rparen)); Chr ")"].

(** [^INJECT(?:_FROM_PREVIOUS)?\((.+)\)$] *)
Definition inject_wrapper_pattern : regex :=
  seq [Bol; lit "INJECT"; opt (lit "_FROM_PREVIOUS"); Chr "(";
       Grp (plus (Cls any_but_newline)); Chr ")"; Eol].

(** [^evaluate\((.+)\)$] *)
Definition evaluate_wrapper_pattern : regex :=
  seq [Bol; lit "evaluate("; Grp (plus (Cls any_but_newline)); Chr ")"; Eol].

(** [\b(I)\b] with [I] the identifier rule [[a-zA-Z_][a-zA-Z0-9_]*]. *)
Definition identifier_pattern : regex :=
  seq [Wordb; Grp (Cat (Cls ident_start) (Star (Cls ident_part))); Wordb].

(** [INJECT(?:_FROM_PREVIOUS)?\((?:[^()]+|\([^()]*\))+\)] *)
Definition inject_pattern : regex :=
  seq [lit "INJECT"; opt (lit "_FROM_PREVIOUS"); Chr "(";
       plus (Alt (plus (Cls not_paren))
                 (seq [Chr "("; Star (Cls not_paren); Chr ")"]));
       Chr ")"].

(** [---query \d+[^-]*---] *)
Definition query_marker_pattern : regex :=
  seq [lit "---query "; plus (Cls is_digit); Star (Cls not_dash); lit "---"].

(** [INJECT\([^)]+\)] *)
Definition legacy_inject_pattern : regex :=
  seq [lit "INJECT("; plus (Cls not_rparen); Chr ")"].

(** ** Exceptions and results *)

Record exn : Type := mkExn { exn_class : string; exn_text : string }.

Inductive py_result (A : Type) : Type :=
| Ok (a : A)
| Raise (e : exn).
Arguments Ok {A} a.
Arguments Raise {A} e.

Definition bind {A B : Type} (m : py_result A) (f : A -> py_result B)
  : py_result B :=
  match m with
  | Ok a => f a
  | Raise e => Raise e
  end.

Notation "x <- m ;; k" := (bind m (fun x => k))
  (at level 61, m at next level, right associativity).

(** [try: body / except classes: handler]: an empty list of classes stands
    for [except Exception]. *)
Definition try_except {A : Type} (body : py_result A) (classes : list string)
  (handler : exn -> py_result A) : py_result A :=
  match body with
  | Ok a => Ok a
  | Raise e =>
      match classes with
      | [] => handler e
      | _ :: _ =>
          if existsb (String.eqb (exn_class e)) classes then handler e
          else Raise e
      end
  end.

(** ** Floats *)

Definition pow2 (e : Z) : Z := 2 ^ e.

Definition signed (s : bool) (n : Z) : Z := if s then (- n)%Z else n.

(** The nearest integer to [m * 2^e], ties to even, for [m >= 0]. *)
Definition round_half_even (m e : Z) : Z :=
  if (0 <=? e)%Z then (m * pow2 e)%Z
  else
    let d := pow2 (- e) in
    let q := (m / d)%Z in
    match (2 * (m mod d) ?= d)%Z with
    | Lt => q
    | Gt => (q + 1)%Z
    | Eq => if Z.even q then q else (q + 1)%Z
    end.

(** [round(x)] for a float. *)
Definition float_round (x : spec_float) : py_result Z :=
  match x with
  | S754_zero _ => Ok 0%Z
  | S754_finite s m e => Ok (signed s (round_half_even (Zpos m) e))
  | S754_infinity _ =>
      Raise (mkExn "OverflowError" "cannot convert float infinity to integer")
  | S754_nan =>
      Raise (mkExn "ValueError" "cannot convert float NaN to integer")
  end.

(** [x.is_integer()]. *)
Definition float_is_integer (x : spec_float) : bool :=
  match x with
  | S754_zero _ => true
  | S754_finite _ m e =>
      (0 <=? e)%Z || (Zpos m mod pow2 (- e) =? 0)%Z
  | S754_infinity _ | S754_nan => false
  end.

(** [int(x)] for a float: truncation towards zero. *)
Definition float_int (x : spec_float) : py_result Z :=
  match x with
  | S754_zero _ => Ok 0%Z
  | S754_finite s m e =>
      Ok (signed s (if (0 <=? e)%Z then Zpos m * pow2 e
                    else Zpos m / pow2 (- e))%Z)
  | S754_infinity _ =>
      Raise (mkExn "OverflowError" "cannot convert float infinity to integer")
  | S754_nan =>
      Raise (mkExn "ValueError" "cannot convert float NaN to integer")
  end.

(** [x < 1] for a float. *)
Definition float_lt_one (x : spec_float) : bool :=
  match x with
  | S754_zero _ => true
  | S754_finite true _ _ => true
  | S754_finite false m e => (e <? 0)%Z && (Zpos m <? pow2 (- e))%Z
  | S754_infinity s => s
  | S754_nan => false
  end.

(** ** Values *)

Inductive value : Type :=
| VInt (n : Z)
| VFloat (x : spec_float)
| VBool (b : bool)
| VStr (s : string)
| VNone
| VOther (shown : string).

(** [isinstance(v, (int, float))]: [bool] is a subclass of [int]. *)
Definition is_number (v : value) : bool :=
  match v with
  | VInt _ | VFloat _ | VBool _ => true
  | VStr _ | VNone | VOther _ => false
  end.

(** [v < 1] for a number. *)
Definition less_than_one (v : value) : bool :=
  match v with
  | VInt n => (n <? 1)%Z
  | VFloat x => float_lt_one x
  | VBool b => negb b
  | VStr _ | VNone | VOther _ => false
  end.

(** [str(n)] and [f"{n}"] for an [int]: CPython refuses the conversion to
    decimal with [ValueError] when [n] has more digits than
    [sys.get_int_max_str_digits()], 4300 unless configured. *)
Definition int_max_str_digits : Z := 4300.

Definition int_str_ok (n : Z) : bool :=
  (Z.abs n <? 10 ^ int_max_str_digits)%Z.

(** What formatting a result into a log line can end in: nothing to see
    for a float, a [bool], a string or [None]; [ValueError] for an [int]
    over the digit limit. *)
Definition format_value (v : value) : py_result unit :=
  match v with
  | VInt n =>
      if int_str_ok n then Ok tt
      else Raise (mkExn "ValueError"
                    "Exceeds the limit (4300 digits) for integer string conversion")
  | VFloat _ | VBool _ | VStr _ | VNone | VOther _ => Ok tt
  end.

(** What the code takes from the interpreter: [eval(expr, safe_dict, {})]
    with the result or the exception it ends in, [float(s)] ([None] when it
    raises [ValueError]), and [str(x)] for a float. *)
Record interpreter : Type := mkInterpreter {
  py_eval : string -> py_result value;
  py_float : string -> option spec_float;
  float_repr : spec_float -> string
}.

(** ** Bindings: a [dict] in insertion order *)

Definition dict (A : Type) : Type := list (string * A).

Fixpoint dict_get {A : Type} (k : string) (d : dict A) : option A :=
  match d with
  | [] => None
  | (k', v) :: d' => if String.eqb k k' then Some v else dict_get k d'
  end.

Definition dict_mem {A : Type} (k : string) (d : dict A) : bool :=
  match dict_get k d with Some _ => true | None => false end.

(** [d[k] = v]: an existing key keeps its place, a new one goes last. *)
Fixpoint dict_set {A : Type} (k : string) (v : A) (d : dict A) : dict A :=
  match d with
  | [] => [(k, v)]
  | (k', v') :: d' =>
      if String.eqb k k' then (k', v) :: d' else (k', v') :: dict_set k v d'
  end.

Definition bindings : Type := dict value.

Definition str_mem (s : string) (l : list string) : bool :=
  existsb (String.eqb s) l.

(** ** [_evaluate_injection] *)

Section Evaluator.

Variable py : interpreter.

(** [str(v)]. *)
Definition py_str (v : value) : string :=
  match v with
  | VInt n => str_of_int n
  | VFloat x => float_repr py x
  | VBool true => "True"
  | VBool false => "False"
  | VStr s => s
  | VNone => "None"
  | VOther shown => shown
  end.

(** The expression left once the wrappers are removed. *)
Definition unwrap (expression : string) : string :=
  let expr := expression in
  let expr :=
    if str_in "evaluate(" expr then
      match re_search evaluate_inner_pattern expr with
      | Some m => group_1 m
      | None => expr
      end
    else expr in
  let expr := re_sub_group inject_wrapper_pattern expr in
  re_sub_group evaluate_wrapper_pattern expr.

Definition required_vars (expr : string) : list string :=
  re_findall_group identifier_pattern expr.

Definition known_functions : list string :=
  ["int"; "float"; "round"; "abs"; "min"; "max"].

Definition missing_vars (expr : string) (previous_results : bindings)
  : list string :=
  filter
    (fun v => negb (dict_mem v previous_results) && negb (str_mem v known_functions))
    (required_vars expr).

(** One turn of the loop that replaces variable names by their values. *)
Definition substitute_var (expr : string) (item : string * value) : string :=
  let '(var, val) := item in
  if str_in var expr then
    if is_number val then str_replace expr var (py_str val)
    else str_replace expr var ("'" ++ py_str val ++ "'")
  else expr.

Definition substitute (expr : string) (previous_results : bindings) : string :=
  fold_left substitute_var previous_results expr.

(** The body of the [try]: evaluate, format the result into the log line
    [f"Injection evaluated to: {result}"] (which is built before the float
    is rounded, and inside the [try]), and turn a float into an integer. *)
Definition evaluate_body (expr : string) : py_result value :=
  result <- py_eval py expr ;;
  _ <- format_value result ;;
  match result with
  | VFloat x => n <- float_round x ;; Ok (VInt n)
  | _ => Ok result
  end.

Definition _evaluate_injection (expression : string)
  (previous_results : bindings) : py_result value :=
  let expr := unwrap expression in
  match missing_vars expr previous_results with
  | _ :: _ => Ok (VInt 1)
  | [] =>
      let expr := substitute expr previous_results in
      try_except
        (try_except (evaluate_body expr) ["NameError"] (fun _ => Ok (VInt 1)))
        [] (fun _ => Ok (VInt 1))
  end.

(** The text put in place of a marker. *)
Definition replacement_of (injected_value : value) : py_result string :=
  let clamp (injected_int : Z) : Z :=
    if (injected_int <? 1)%Z then 1%Z else injected_int in
  match injected_value with
  | VInt n => Ok (str_of_int (clamp n))
  | VBool b => Ok (str_of_int (clamp (if b then 1 else 0)%Z))
  | VFloat x => n <- float_round x ;; Ok (str_of_int (clamp n))
  | VStr _ | VNone | VOther _ => Ok (py_str injected_value)
  end.

(** One turn of the loop over [inject_params]. *)
Definition inject_param (previous_results : bindings) (query : string)
  (param_expr : string) : py_result string :=
  injected_value <- _evaluate_injection param_expr previous_results ;;
  match re_search inject_pattern query with
  | Some m =>
      let original := group0 m in
      replacement <- replacement_of injected_value ;;
      Ok (str_replace_first query original replacement)
  | None => Ok query
  end.

Fixpoint inject_params_loop (previous_results : bindings) (query : string)
  (params : list string) : py_result string :=
  match params with
  | [] => Ok query
  | param_expr :: params' =>
      query' <- inject_param previous_results query param_expr ;;
      inject_params_loop previous_results query' params'
  end.

End Evaluator.

(** ** [_parse_cached_sequential_sparql] *)

Record plan_step : Type := mkStep {
  query : string;
  inject_params : list string
}.

Definition parse_part (part : string) : list plan_step :=
  let part := str_strip part in
  if String.eqb part EmptyString || str_startswith part "---" then []
  else [mkStep part (re_findall legacy_inject_pattern part)].

Definition _parse_cached_sequential_sparql (sparql_text : string)
  : list plan_step :=
  let parts := re_split query_marker_pattern sparql_text in
  flat_map parse_part (tl parts).

(** ** Triplestore responses

    The response is a JSON object read with [.get]: [results_bindings] is
    [results['results']['bindings']] when both keys are there, [boolean] is
    [results['boolean']] when it is there and not [None], and [other_keys]
    says whether the object has any further key.  A cell of a row is read
    with [value_obj.get('value')]. *)

Definition row : Type := dict (option string).

Record response : Type := mkResponse {
  results_bindings : option (list row);
  boolean : option bool;
  other_keys : bool
}.

Definition empty_response : response := mkResponse None None false.

(** Truth value of the response object: a dict is false when empty. *)
Definition truthy (r : response) : bool :=
  match results_bindings r, boolean r with
  | None, None => other_keys r
  | _, _ => true
  end.

Definition result_count (r : response) : nat :=
  match results_bindings r with
  | Some (b :: bs) => List.length (b :: bs)
  | _ => match boolean r with Some _ => 1 | None => 0 end
  end.

(** ** [_execute_sequential_queries] *)

Definition call : Type := string * py_result response.

Section Executor.

Context {VS : Type}.
Variable py : interpreter.
Variable execute_query : VS -> string -> py_result response * VS.

(** The value kept for one cell of the first row. *)
Definition store_value (raw_value : option string) : py_result value :=
  try_except
    (numeric_value <-
       match raw_value with
       | Some s =>
           match py_float py s with
           | Some x => Ok x
           | None => Raise (mkExn "ValueError" "could not convert string to float")
           end
       | None => Raise (mkExn "TypeError" "float() argument must be a string or a real number")
       end ;;
     if float_is_integer numeric_value
     then n <- float_int numeric_value ;; Ok (VInt n)
     else Ok (VFloat numeric_value))
    ["ValueError"; "TypeError"]
    (fun _ => Ok (match raw_value with Some s => VStr s | None => VNone end)).

Fixpoint store_row (first_row : row) (previous_results : bindings)
  : py_result bindings :=
  match first_row with
  | [] => Ok previous_results
  | (var, raw_value) :: rest =>
      v <- store_value raw_value ;;
      store_row rest (dict_set var v previous_results)
  end.

(** What a response adds to the bindings. *)
Definition store_results (results : response) (previous_results : bindings)
  : py_result bindings :=
  match results_bindings results with
  | Some (first_row :: _) => store_row first_row previous_results
  | _ =>
      match boolean results with
      | Some b => Ok (dict_set "boolean" (VBool b) previous_results)
      | None => Ok previous_results
      end
  end.

(** The state of the loop after some steps; [sent] lists the calls made to
    the triplestore, with what each returned. *)
Record run : Type := mkRun {
  outcome : py_result (option response);
  bound : bindings;
  world : VS;
  sent : list call
}.

Fixpoint run_queries (queries : list plan_step) (previous_results : bindings)
  (final_results : option response) (w : VS) (log : list call) : run :=
  match queries with
  | [] => mkRun (Ok final_results) previous_results w log
  | query_info :: queries' =>
      match
        inject_params_loop py previous_results (query query_info)
          (inject_params query_info)
      with
      | Raise e => mkRun (Raise e) previous_results w log
      | Ok q =>
          let '(r, w') := execute_query w q in
          let log' := log ++ [(q, r)] in
          match r with
          | Raise e => mkRun (Raise e) previous_results w' log'
          | Ok results =>
              match store_results results previous_results with
              | Raise e => mkRun (Raise e) previous_results w' log'
              | Ok previous_results' =>
                  run_queries queries' previous_results' (Some results) w' log'
              end
          end
      end
  end.

Definition final_or_empty (final_results : option response) : response :=
  match final_results with
  | Some r => if truthy r then r else empty_response
  | None => empty_response
  end.

Definition _execute_sequential_queries (queries : list plan_step) (w : VS)
  : py_result response * VS * list call :=
  let r := run_queries queries [] None w [] in
  (final_results <- outcome r ;; Ok (final_or_empty final_results),
   world r, sent r).

End Executor.

(** ** Status messages *)

Module StatusMessage.

Definition nl : string := String newline EmptyString.

Definition processing_query : string := "status: Processing your query" ++ nl.
Definition generating_sparql : string :=
  "status: Analyzing contexts in the knowledge graph" ++ nl.
Definition executing_query : string :=
  "status: Fetching contextual data from knowledge graph" ++ nl.
Definition no_results : string := "status: No context found, thinking more" ++ nl.
Definition processing_results : string :=
  "status: Analyzing context and preparing answer" ++ nl.
Definition no_data : string := "I do not have this information yet." ++ nl.
Definition data_done : string := "data: [DONE]" ++ nl.
Definition error (message : string) : string := "Error: " ++ message ++ nl.

End StatusMessage.

(** ** The response stream of [natural_language_query] *)

Record NLQueryRequest : Type := mkRequest {
  request_query : string;
  request_context : option string
}.

(** What [json.loads] makes of a cached payload: a list of steps, or some
    other JSON value. *)
Inductive json : Type :=
| JList (steps : list plan_step)
| JOther.

(** What [detect_and_parse_sparql] returns: [(True, steps)] or
    [(False, text)]. *)
Inductive parsed : Type :=
| Sequential (steps : list plan_step)
| Single (body : string).

(** The collaborators of the pipeline.
    - [get_cached_query key]: the [sparql_query] of the cache entry, if any;
      nothing is yielded between obtaining the three clients and the
      lookup, so a client that cannot be obtained is a lookup that raises.
    - [json_loads s]: [None] when it raises [JSONDecodeError].
    - [generate_complete prompt]: the raw answer of the language model.
    - [format_results results sparql_query]: [convert_sparql_to_kv] followed
      by [format_for_llm].
    - [answer_stream user_query sparql_query formatted]: the items that
      [_stream_with_timeout_messages] yields for the stream opened by
      [contextualize_answer], or the exception raised on opening it. *)
Record collaborators (VS : Type) : Type := mkCollaborators {
  get_cached_query : string -> py_result (option string);
  json_loads : string -> option json;
  json_dumps : list plan_step -> string;
  generate_complete : string -> py_result string;
  detect_and_parse_sparql : string -> py_result parsed;
  execute_query : VS -> string -> py_result response * VS;
  cache_query : string -> string -> py_result unit;
  format_results : option response -> string -> py_result string;
  answer_stream : string -> string -> string -> py_result (list string)
}.
Arguments get_cached_query {VS} _ _.
Arguments json_loads {VS} _ _.
Arguments json_dumps {VS} _ _.
Arguments generate_complete {VS} _ _.
Arguments detect_and_parse_sparql {VS} _ _.
Arguments execute_query {VS} _ _ _.
Arguments cache_query {VS} _ _ _.
Arguments format_results {VS} _ _ _.
Arguments answer_stream {VS} _ _ _ _.

(** [s.lower()]. *)
Definition lower_char (c : ascii) : ascii :=
  if between 65 90 c || between 192 214 c || between 216 222 c
  then ascii_of_N (code c + 32) else c.
Definition str_lower (s : string) : string := text (map lower_char (chars s)).

(** What the generator has done so far: the frames yielded, the calls to
    [cache_query], the state of the triplestore and the calls made to it. *)
Record stream (VS : Type) : Type := mkStream {
  frames : list string;
  cache_calls : list (string * string);
  store : VS;
  calls : list call
}.
Arguments mkStream {VS} _ _ _ _.
Arguments frames {VS} _.
Arguments cache_calls {VS} _.
Arguments store {VS} _.
Arguments calls {VS} _.

(** How a piece of the generator ends: it goes on with a value, an
    exception is on its way up, or the generator has returned. *)
Inductive control (A : Type) : Type :=
| Next (a : A)
| Failed (e : exn)
| Returned.
Arguments Next {A} a.
Arguments Failed {A} e.
Arguments Returned {A}.

Definition gen (VS A : Type) : Type := stream VS -> control A * stream VS.

Section Generator.

Context {VS : Type}.

Definition ret {A : Type} (a : A) : gen VS A := fun st => (Next a, st).

Definition gbind {A B : Type} (m : gen VS A) (f : A -> gen VS B) : gen VS B :=
  fun st =>
    match m st with
    | (Next a, st') => f a st'
    | (Failed e, st') => (Failed e, st')
    | (Returned, st') => (Returned, st')
    end.

Definition yield (frame : string) : gen VS unit :=
  fun st =>
    (Next tt, mkStream (frames st ++ [frame]) (cache_calls st) (store st) (calls st)).

Definition await {A : Type} (r : py_result A) : gen VS A :=
  fun st => match r with Ok a => (Next a, st) | Raise e => (Failed e, st) end.

Definition return_ {A : Type} : gen VS A := fun st => (Returned, st).

(** [try: body / except Exception as e: handler e]. *)
Definition try_gen {A : Type} (body : gen VS A) (handler : exn -> gen VS A)
  : gen VS A :=
  fun st =>
    match body st with
    | (Failed e, st') => handler e st'
    | other => other
    end.

Fixpoint yield_all (l : list string) : gen VS unit :=
  match l with
  | [] => ret tt
  | f :: l' => gbind (yield f) (fun _ => yield_all l')
  end.

End Generator.

Notation "x <~ m ;; k" := (gbind m (fun x => k))
  (at level 61, m at next level, right associativity).
Notation "' pat <~ m ;; k" := (gbind m (fun x => match x with pat => k end))
  (at level 61, pat pattern, m at next level, right associativity).
Notation "m ;;; k" := (gbind m (fun _ => k))
  (at level 61, right associativity).

Section Pipeline.

Context {VS : Type}.
Variable py : interpreter.
Variable env : collaborators VS.

Import StatusMessage.

(** [await redis_client.cache_query(nl_query, sparql_query)]. *)
Definition cache (nl_query sparql_query : string) : gen VS unit :=
  fun st =>
    let st' :=
      mkStream (frames st) (cache_calls st ++ [(nl_query, sparql_query)])
        (store st) (calls st) in
    match cache_query env nl_query sparql_query with
    | Ok _ => (Next tt, st')
    | Raise e => (Failed e, st')
    end.

(** [await _execute_sequential_queries(virtuoso, sparql_queries)]. *)
Definition execute_plan (sparql_queries : list plan_step) : gen VS response :=
  fun st =>
    let '(r, w, log) :=
      _execute_sequential_queries py (execute_query env) sparql_queries (store st) in
    let st' := mkStream (frames st) (cache_calls st) w (calls st ++ log) in
    match r with
    | Ok results => (Next results, st')
    | Raise e => (Failed e, st')
    end.

(** [await virtuoso.execute_query(sparql_query)]. *)
Definition execute_single (sparql_query : string) : gen VS response :=
  fun st =>
    let '(r, w) := execute_query env (store st) sparql_query in
    let st' :=
      mkStream (frames st) (cache_calls st) w (calls st ++ [(sparql_query, r)]) in
    match r with
    | Ok results => (Next results, st')
    | Raise e => (Failed e, st')
    end.

Definition no_data_path {A : Type} : gen VS A :=
  yield no_data ;;; yield data_done ;;; return_.

(** Stage 1: from the cache entry or from the language model to
    [(is_sequential, sparql_query, sparql_queries)]. *)
Definition stage1 (user_query : string) (cached_data : option string)
  : gen VS (bool * string * list plan_step) :=
  match cached_data with
  | Some cached_sparql =>
      match json_loads env cached_sparql with
      | Some (JList (q :: qs)) => ret (true, EmptyString, q :: qs)
      | Some _ => ret (false, cached_sparql, [])
      | None =>
          if str_in "---split" cached_sparql || str_in "---query" cached_sparql
          then ret (true, EmptyString, _parse_cached_sequential_sparql cached_sparql)
          else ret (false, cached_sparql, [])
      end
  | None =>
      yield generating_sparql ;;;
      try_gen
        (raw_sparql_response <~ await (generate_complete env user_query) ;;
         if str_in "SELECT" raw_sparql_response then
           sparql_content <~ await (detect_and_parse_sparql env raw_sparql_response) ;;
           match sparql_content with
           | Sequential steps => ret (true, EmptyString, steps)
           | Single body => ret (false, body, [])
           end
         else ret (false, EmptyString, []))
        (fun _ => ret (false, EmptyString, []))
  end.

(** The tail shared by both branches of stage 2 once results are there. *)
Definition count_and_cache (user_query payload : string)
  (sparql_results : response) : gen VS unit :=
  if Nat.eqb (result_count sparql_results) 0 then yield no_results
  else cache user_query payload.

(** Stage 2: execution; gives [(is_sequential, sparql_results)]. *)
Definition stage2 (user_query : string) (is_sequential : bool)
  (sparql_query : string) (sparql_queries : list plan_step)
  : gen VS (bool * option response) :=
  if is_sequential then
    yield executing_query ;;;
    try_gen
      (sparql_results <~ execute_plan sparql_queries ;;
       if truthy sparql_results then
         count_and_cache user_query (json_dumps env sparql_queries) sparql_results ;;;
         ret (true, Some sparql_results)
       else no_data_path)
      (fun _ => ret (false, None))
  else
    if negb (String.eqb sparql_query EmptyString) then
      yield executing_query ;;;
      try_gen
        (sparql_results <~ execute_single sparql_query ;;
         count_and_cache user_query sparql_query sparql_results ;;;
         ret (false, Some sparql_results))
        (fun _ => no_data_path)
    else no_data_path.

(** Stage 3: contextualisation. *)
Definition stage3 (user_query : string) (is_sequential : bool)
  (sparql_query : string) (sparql_queries : list plan_step)
  (sparql_results : option response) : gen VS unit :=
  let sparql_query :=
    if is_sequential && negb (Nat.eqb (List.length sparql_queries) 0)
    then json_dumps env sparql_queries else sparql_query in
  yield processing_results ;;;
  try_gen
    (formatted_results <~ await (format_results env sparql_results sparql_query) ;;
     chunks <~ await (answer_stream env user_query sparql_query formatted_results) ;;
     yield_all (map (fun chunk => (chunk ++ nl)%string) chunks))
    (fun e => yield (error ("Error generating answer: " ++ exn_text e) ++ nl)) ;;;
  yield data_done.

Definition effective_query (request : NLQueryRequest) : string :=
  match request_context request with
  | Some (String c ctx) => String c ctx ++ nl ++ nl ++ request_query request
  | _ => request_query request
  end.

Definition response_stream (request : NLQueryRequest) : gen VS unit :=
  try_gen
    (yield processing_query ;;;
     let user_query := effective_query request in
     let low_query := str_strip (str_lower user_query) in
     cached_data <~ await (get_cached_query env low_query) ;;
     '(is_sequential, sparql_query, sparql_queries) <~ stage1 user_query cached_data ;;
     '(is_sequential', sparql_results) <~
        stage2 user_query is_sequential sparql_query sparql_queries ;;
     stage3 user_query is_sequential' sparql_query sparql_queries sparql_results)
    (fun e =>
       yield (error ("Unexpected error: " ++ exn_text e) ++ nl) ;;;
       yield data_done).

(** The stream a request produces against a triplestore in state [w]. *)
Definition run_stream (request : NLQueryRequest) (w : VS)
  : control unit * stream VS :=
  response_stream request (mkStream [] [] w []).

End Pipeline.

(** ** [_stream_with_timeout_messages]

    The generator is embedded over what its awaits give it: each turn of
    the loop either receives a chunk or sees [asyncio.wait_for] time out,
    and the loop ends when the upstream is exhausted, when the task is
    cancelled, or when anything else is raised.  The clock is read after
    each of the two; [past_window now last] stands for the test
    [current_time - last_status_time >= timeout_seconds]. *)

Module Heartbeat.

Definition THINKING_MESSAGES : list string :=
  map (fun m => (m ++ StatusMessage.nl)%string)
    ["status: Analyzing your query deeply";
     "status: Exploring the knowledge graph";
     "status: Finding relevant connections";
     "status: Processing complex relationships";
     "status: Gathering comprehensive data";
     "status: Cross-referencing information";
     "status: Validating query results";
     "status: Optimizing data retrieval"].

(** [next(message_cycle)] when [cursor] messages have been taken. *)
Definition next_message (cursor : nat) : string :=
  nth (cursor mod List.length THINKING_MESSAGES) THINKING_MESSAGES EmptyString.

(** What one turn of the loop is given. *)
Inductive awaited (time : Type) : Type :=
| Chunk (chunk : string) (now : time)
| TimedOut (now : time).
Arguments Chunk {time} chunk now.
Arguments TimedOut {time} now.

(** How the loop is left. *)
Inductive ending : Type :=
| Exhausted
| Cancelled
| Broke (e : exn).

(** What the generator yields: a chunk of the upstream or a message of its
    own; the consumer sees the text only. *)
Inductive item : Type :=
| Upstream (chunk : string)
| Own (message : string).

Definition item_text (i : item) : string :=
  match i with Upstream chunk => chunk | Own message => message end.

(** How the generator itself ends. *)
Inductive finish : Type :=
| Finished
| Reraised.

Section Wrapper.

Variable time : Type.
Variable past_window : time -> time -> bool.

(** The [while True] loop, with the cursor of the message cycle. *)
Fixpoint relay (events : list (awaited time)) (last_status_time : time)
  (cursor : nat) : list item :=
  match events with
  | [] => []
  | Chunk chunk now :: events' => Upstream chunk :: relay events' now cursor
  | TimedOut current_time :: events' =>
      if past_window current_time last_status_time
      then Own (next_message cursor) :: relay events' current_time (S cursor)
      else relay events' last_status_time cursor
  end.

Definition _stream_with_timeout_messages (start : time)
  (events : list (awaited time)) (stop : ending) : list item * finish :=
  let yielded := relay events start 0 in
  match stop with
  | Exhausted => (yielded, Finished)
  | Cancelled => (yielded, Reraised)
  | Broke e =>
      (yielded
       ++ [Own ("error: Stream error: " ++ exn_text e ++ StatusMessage.nl)],
       Finished)
  end.

End Wrapper.

(** The chunks a trace delivers, and its time-outs that pass the test. *)
Definition chunks_of {time : Type} (events : list (awaited time)) : list string :=
  flat_map (fun ev => match ev with Chunk c _ => [c] | TimedOut _ => [] end) events.

Definition upstream_of (items : list item) : list string :=
  flat_map (fun i => match i with Upstream c => [c] | Own _ => [] end) items.


End Heartbeat.

(** ** [get_top_queries] *)

Module TopQueries.

(** An entry of [get_popular_queries] and an entry of the answer. *)
Record popular : Type := mkPopular {
  original_query : string;
  normalized_query : string;
  count : Z
}.

Record ranked : Type := mkRanked {
  rank : Z;
  ranked_query : string;
  ranked_normalized_query : string;
  frequency : Z
}.

(** The answer of the endpoint: the body, or [HTTPException]. *)
Inductive answer : Type :=
| Body (top_queries : list ranked)
| HTTPException (status_code : Z) (detail : string).

(** The comprehension over [enumerate(popular_queries)], from index [idx]. *)
Fixpoint rank_from (idx : Z) (popular_queries : list popular) : list ranked :=
  match popular_queries with
  | [] => []
  | q :: rest =>
      mkRanked (idx + 1) (original_query q) (normalized_query q) (count q)
      :: rank_from (idx + 1) rest
  end.

Definition get_top_queries
  (get_popular_queries : Z -> py_result (list popular)) (limit : Z) : answer :=
  match get_popular_queries limit with
  | Ok popular_queries => Body (rank_from 0 popular_queries)
  | Raise e => HTTPException 500 (exn_text e)
  end.

End TopQueries.

(** ** Concrete collaborators for the examples

    Python's answers on the texts that occur in the examples below; on any
    other text [table_eval] and [table_float] answer with a failure, and
    [table_repr] is meant for the floats listed only. *)

Definition table_eval (e : string) : py_result value :=
  if String.eqb e "0/4" then Ok (VFloat (S754_zero false))
  else if String.eqb e "10882/2" then Ok (VFloat (S754_finite false 5441 0))
  else Raise (mkExn "SyntaxError" "invalid syntax").

Definition table_float (s : string) : option spec_float :=
  if String.eqb s "0" then Some (S754_zero false)
  else if String.eqb s "10882" then Some (S754_finite false 10882 0)
  else if String.eqb s "2.5" then Some (S754_finite false 5 (-1))
  else None.

Definition table_repr (x : spec_float) : string :=
  match x with
  | S754_finite false 5 (-1) => "2.5"
  | _ => "0.0"
  end.

Definition table_py : interpreter :=
  mkInterpreter table_eval table_float table_repr.

Definition count_query : string :=
  "SELECT (COUNT(*) AS ?total) WHERE { ?s ?p ?o }".
Definition page_query : string :=
  "SELECT ?s WHERE { ?s ?p ?o } LIMIT INJECT(total/2)".

Definition two_step_plan : list plan_step :=
  [mkStep count_query []; mkStep page_query ["INJECT(total/2)"]].

Definition one_row (var val : string) : response :=
  mkResponse (Some [[(var, Some val)]]) None true.

Definition no_rows : response := mkResponse (Some []) None true.

(** A triplestore that counts 10882 triples and answers every other query
    with one row. *)
Definition counting_store (w : unit) (q : string) : py_result response * unit :=
  if String.eqb q count_query then (Ok (one_row "total" "10882"), tt)
  else (Ok (one_row "s" "http://example.org/s"), tt).

(** A triplestore that cannot be reached. *)
Definition unreachable_store (w : unit) (q : string) : py_result response * unit :=
  (Raise (mkExn "ConnectionError" "triplestore unreachable"), tt).

(** A triplestore that answers every query with an empty table. *)
Definition empty_store (w : unit) (q : string) : py_result response * unit :=
  (Ok no_rows, tt).

(** [json.dumps] of a plan whose texts hold no character that JSON
    escapes. *)
Definition dq : string := String "034"%char EmptyString.
Definition quoted (s : string) : string := dq ++ s ++ dq.
Definition dumps_step (st : plan_step) : string :=
  "{" ++ quoted "query" ++ ": " ++ quoted (query st) ++ ", "
  ++ quoted "inject_params" ++ ": ["
  ++ String.concat ", " (map quoted (inject_params st)) ++ "]}".
Definition dumps_plan (steps : list plan_step) : string :=
  "[" ++ String.concat ", " (map dumps_step steps) ++ "]".

(** A cache that holds [two_step_plan] for every key, in canonical form. *)
Definition plan_text : string := dumps_plan two_step_plan.

Definition cache_hit_env (store : unit -> string -> py_result response * unit)
  : collaborators unit :=
  mkCollaborators unit
    (fun _ => Ok (Some plan_text))
    (fun s => if String.eqb s plan_text then Some (JList two_step_plan) else None)
    dumps_plan
    (fun _ => Raise (mkExn "RuntimeError" "language model not expected"))
    (fun s => Ok (Single s))
    store
    (fun _ _ => Ok tt)
    (fun _ _ => Ok "formatted")
    (fun _ _ _ => Ok ["answer"]).

(** An empty cache and a language model that answers [raw]; the parser
    hands the whole answer back as a single query. *)
Definition cache_miss_env (raw : string) : collaborators unit :=
  mkCollaborators unit
    (fun _ => Ok None)
    (fun _ => None)
    dumps_plan
    (fun _ => Ok raw)
    (fun s => Ok (Single s))
    counting_store
    (fun _ _ => Ok tt)
    (fun _ _ => Ok "formatted")
    (fun _ _ _ => Ok ["answer"]).

(** A cache that cannot be reached. *)
Definition cache_down_env : collaborators unit :=
  mkCollaborators unit
    (fun _ => Raise (mkExn "ConnectionError" "cache unreachable"))
    (fun _ => None)
    dumps_plan
    (fun _ => Ok "SELECT 1")
    (fun s => Ok (Single s))
    counting_store
    (fun _ _ => Ok tt)
    (fun _ _ => Ok "formatted")
    (fun _ _ _ => Ok ["answer"]).

Definition epochs_request : NLQueryRequest := mkRequest "how many epochs?" None.

(** A cache entry in the legacy delimited form, whose second step carries
    the marker in its long spelling. *)
Definition legacy_page_query : string :=
  "SELECT ?s WHERE { ?s ?p ?o } LIMIT INJECT_FROM_PREVIOUS(total)".

Definition legacy_text : string :=
  "---query 1---" ++ StatusMessage.nl ++ count_query ++ StatusMessage.nl
  ++ "---query 2---" ++ StatusMessage.nl ++ legacy_page_query.

(** A legacy entry whose marker holds a call. *)
Definition legacy_nested_query : string :=
  "SELECT ?s WHERE { ?s ?p ?o } LIMIT INJECT(max(total, 10))".

Definition legacy_nested_text : string :=
  "---query 1---" ++ StatusMessage.nl ++ legacy_nested_query.

Definition select_response : string := "SELECT ?s WHERE { ?s ?p ?o }".
Definition ask_response : string := "ASK { ?s ?p ?o }".

Definition cache_down_frame : string :=
  "Error: Unexpected error: cache unreachable" ++ StatusMessage.nl
  ++ StatusMessage.nl.

(** An interpreter for an expression that is a quoted name. *)
Definition name_query : string :=
  "SELECT ?s WHERE { ?s ?p INJECT(name) }".

Definition text_eval (e : string) : py_result value :=
  if String.eqb e "'Alice'" then Ok (VStr "Alice")
  else Raise (mkExn "SyntaxError" "invalid syntax").

Definition text_py : interpreter :=
  mkInterpreter text_eval table_float table_repr.

(** An interpreter for a power of ten that is one digit over the limit of
    the conversion to decimal. *)
Definition power_query : string :=
  "SELECT ?s WHERE { ?s ?p ?o } LIMIT INJECT(10**4300)".

Definition power_eval (e : string) : py_result value :=
  if String.eqb e "10**4300" then Ok (VInt (10 ^ 4300))
  else Raise (mkExn "SyntaxError" "invalid syntax").

Definition power_py : interpreter :=
  mkInterpreter power_eval table_float table_repr.

(** A triplestore that answers the count and cannot be reached after. *)
Definition failing_after_count (w : unit) (q : string)
  : py_result response * unit :=
  if String.eqb q count_query then counting_store w q
  else unreachable_store w q.

(** A cache that holds [cached_sparql], a text that is not JSON, for every
    key. *)
Definition text_hit_env (cached_sparql : string)
  (store : unit -> string -> py_result response * unit) : collaborators unit :=
  mkCollaborators unit
    (fun _ => Ok (Some cached_sparql))
    (fun _ => None)
    dumps_plan
    (fun _ => Raise (mkExn "RuntimeError" "language model not expected"))
    (fun s => Ok (Single s))
    store
    (fun _ _ => Ok tt)
    (fun _ _ => Ok "formatted")
    (fun _ _ _ => Ok ["answer"]).

Definition split_entry : string := "SELECT ?s ---split--- SELECT ?o".

(** An empty cache and a language model that cannot be reached. *)
Definition model_down_env : collaborators unit :=
  mkCollaborators unit
    (fun _ => Ok None)
    (fun _ => None)
    dumps_plan
    (fun _ => Raise (mkExn "ConnectionError" "language model unreachable"))
    (fun s => Ok (Single s))
    counting_store
    (fun _ _ => Ok tt)
    (fun _ _ => Ok "formatted")
    (fun _ _ _ => Ok ["answer"]).

(** The collaborators with another language model and another parser. *)
Definition with_language_model {VS : Type} (env : collaborators VS)
  (generate : string -> py_result string)
  (detect : string -> py_result parsed) : collaborators VS :=
  mkCollaborators VS (get_cached_query env) (json_loads env) (json_dumps env)
    generate detect (execute_query env) (cache_query env) (format_results env)
    (answer_stream env).

(** A cache that holds the legacy text of [two_step_plan]'s first step. *)
Definition legacy_count_text : string :=
  "---query 1---" ++ StatusMessage.nl ++ count_query.

(** ** Vocabulary of the properties *)

(** The part of [evaluate\(([^)]+)\)] after the name. *)
Definition inner_tail : regex :=
  Cat (Grp (plus (Cls not_rparen))) (Chr ")").

(** The part of the two wrapper patterns after the name of the wrapper. *)
Definition wrapper_tail : regex :=
  seq [Chr "("; Grp (plus (Cls any_but_newline)); Chr ")"; Eol].

(** The continuation of a match attempt: report what is left. *)
Definition report : cont := fun _ rest cap => Some (rest, cap).

(** What a greedy [c*] over a class does: take characters of the class as
    long as there are any, then give back one at a time until the rest of
    the pattern matches. *)
Fixpoint star_greedy (p : ascii -> bool) (k : cont) (prev : option ascii)
  (s : list ascii) (cap : capture) : option answer :=
  match s with
  | x :: s' =>
      if p x then
        match star_greedy p k (Some x) s' cap with
        | Some a => Some a
        | None => k prev s cap
        end
      else k prev s cap
  | [] => k prev s cap
  end.

(** The character before the position reached after reading [l]. *)
Definition prev_after (prev : option ascii) (l : list ascii) : option ascii :=
  fold_left (fun _ a => Some a) l prev.

(** How often [asyncio.wait_for] timed out in a trace. *)
Definition timeouts_of {time : Type} (events : list (Heartbeat.awaited time))
  : nat :=
  List.length
    (filter (fun ev => match ev with
                       | Heartbeat.TimedOut _ => true
                       | Heartbeat.Chunk _ _ => false
                       end) events).


(** A clock in seconds and the stall window of 300 seconds. *)
Definition window_300 (now last : Z) : bool := (300 <=? now - last)%Z.



(** A cache that holds [two_step_plan] and refuses what it is handed. *)
Definition cache_refusing_env : collaborators unit :=
  mkCollaborators unit
    (fun _ => Ok (Some plan_text))
    (fun s => if String.eqb s plan_text then Some (JList two_step_plan) else None)
    dumps_plan
    (fun _ => Raise (mkExn "RuntimeError" "language model not expected"))
    (fun s => Ok (Single s))
    counting_store
    (fun _ _ => Raise (mkExn "ConnectionError" "cache unreachable"))
    (fun _ _ => Ok "formatted")
    (fun _ _ _ => Ok ["answer"]).

(** Two popular queries, as the cache reports them. *)
Definition two_popular : list TopQueries.popular :=
  [TopQueries.mkPopular "How many epochs?" "how many epochs?" 7;
   TopQueries.mkPopular "Latest block" "latest block" 3].

(** A text that does not start with white space. *)
Definition clean_start (l : list ascii) : Prop :=
  match l with [] => True | c :: _ => is_space c = false end.

(** A call to the triplestore that returned a response. *)
Definition call_ok (c : call) : bool :=
  match snd c with Ok _ => true | Raise _ => false end.

(** Every step of the plan was dispatched and every call returned. *)
Definition all_steps_returned (queries : list plan_step) (log : list call)
  : Prop :=
  List.length log = List.length queries /\ forallb call_ok log = true.

(** The frames of the contextualisation stage between its status frame and
    the closing one. *)
Definition answer_frames {VS : Type} (env : collaborators VS)
  (user_query sparql_query : string) (sparql_results : option response)
  : list string :=
  match
    formatted <- format_results env sparql_results sparql_query ;;
    answer_stream env user_query sparql_query formatted
  with
  | Ok chunks => map (fun chunk => (chunk ++ StatusMessage.nl)%string) chunks
  | Raise e =>
      [(StatusMessage.error ("Error generating answer: " ++ exn_text e)
        ++ StatusMessage.nl)%string]
  end.

(** The cache key of a request. *)
Definition cache_key (request : NLQueryRequest) : string :=
  str_strip (str_lower (effective_query request)).

(** The state of the stream once the first status frame is out. *)
Definition started {VS : Type} (w : VS) : stream VS :=
  mkStream [StatusMessage.processing_query] [] w [].

(** * Properties *)

(** ** Rounding *)

Lemma pow2_pos (e : Z) : (0 <= e)%Z -> (0 < pow2 e)%Z.
Proof. intros He. unfold pow2. apply Z.pow_pos_nonneg; lia. Qed.

Lemma round_half_even_nonneg (m e : Z) :
  (0 <= m)%Z -> (0 <= round_half_even m e)%Z.
Proof.
  intros Hm. unfold round_half_even.
  destruct (Z.leb_spec 0 e) as [He | He].
  - assert (0 < pow2 e)%Z by (apply pow2_pos; lia). nia.
  - assert (Hd : (0 < pow2 (- e))%Z) by (apply pow2_pos; lia).
    assert (0 <= m / pow2 (- e))%Z by (apply Z.div_pos; lia).
    destruct (2 * (m mod pow2 (- e)) ?= pow2 (- e))%Z;
      [destruct (Z.even _) | |]; lia.
Qed.

Lemma round_half_even_small (m e : Z) :
  (0 <= m)%Z -> (e < 0)%Z -> (m < pow2 (- e))%Z ->
  (round_half_even m e <= 1)%Z.
Proof.
  intros Hm He Hlt. unfold round_half_even.
  destruct (Z.leb_spec 0 e) as [He' | _]; [lia |].
  rewrite Z.div_small, Z.mod_small by lia.
  destruct (2 * m ?= pow2 (- e))%Z; simpl; lia.
Qed.

Lemma float_round_lt_one (x : spec_float) (n : Z) :
  float_lt_one x = true -> float_round x = Ok n -> (n <= 1)%Z.
Proof.
  destruct x as [s | s | | s m e]; simpl; intros Hlt Hr; try discriminate.
  - injection Hr as <-. lia.
  - injection Hr as <-.
    destruct s; simpl.
    + pose proof (round_half_even_nonneg (Zpos m) e). lia.
    + apply andb_true_iff in Hlt as [He Hm].
      apply Z.ltb_lt in He. apply Z.ltb_lt in Hm.
      apply round_half_even_small; lia.
Qed.

(** ** The evaluator *)

Section EvaluatorFacts.

Variable py : interpreter.

Lemma try_except_twice (body : py_result value) :
  try_except (try_except body ["NameError"] (fun _ => Ok (VInt 1))) []
    (fun _ => Ok (VInt 1))
  = match body with Ok v => Ok v | Raise _ => Ok (VInt 1) end.
Proof.
  destruct body as [v | e]; simpl; [reflexivity |].
  destruct (exn_class e =? "NameError")%string; reflexivity.
Qed.

Lemma evaluate_injection_unfold (expression : string) (previous_results : bindings) :
  _evaluate_injection py expression previous_results
  = match missing_vars (unwrap expression) previous_results with
    | _ :: _ => Ok (VInt 1)
    | [] =>
        match evaluate_body py
                (substitute py (unwrap expression) previous_results) with
        | Ok v => Ok v
        | Raise _ => Ok (VInt 1)
        end
    end.
Proof.
  unfold _evaluate_injection.
  destruct (missing_vars _ _); [apply try_except_twice | reflexivity].
Qed.

Lemma evaluate_body_raise (expr : string) (e : exn) :
  py_eval py expr = Raise e -> evaluate_body py expr = Raise e.
Proof. intros H. unfold evaluate_body. rewrite H. reflexivity. Qed.

Lemma evaluate_body_int (expr : string) (n : Z) :
  py_eval py expr = Ok (VInt n) ->
  evaluate_body py expr
  = if int_str_ok n then Ok (VInt n)
    else Raise (mkExn "ValueError"
                  "Exceeds the limit (4300 digits) for integer string conversion").
Proof.
  intros H. unfold evaluate_body. rewrite H. cbn [bind format_value].
  destruct (int_str_ok n); reflexivity.
Qed.

Lemma evaluate_body_float (expr : string) (x : spec_float) :
  py_eval py expr = Ok (VFloat x) ->
  evaluate_body py expr = (n <- float_round x ;; Ok (VInt n)).
Proof. intros H. unfold evaluate_body. rewrite H. reflexivity. Qed.

Lemma evaluate_body_other (expr : string) (v : value) :
  py_eval py expr = Ok v ->
  (forall n, v <> VInt n) -> (forall x, v <> VFloat x) ->
  evaluate_body py expr = Ok v.
Proof.
  intros H Hi Hf. unfold evaluate_body. rewrite H.
  destruct v as [n | x | b | s | | shown]; try reflexivity.
  - destruct (Hi n). reflexivity.
  - destruct (Hf x). reflexivity.
Qed.

Lemma evaluate_body_not_float (expr : string) (v : value) :
  evaluate_body py expr = Ok v -> forall x, v <> VFloat x.
Proof.
  destruct (py_eval py expr) as [r | e] eqn:He.
  - destruct r as [n | x | b | s | | shown].
    + rewrite (evaluate_body_int expr n He).
      destruct (int_str_ok n); intros H; [injection H as <- |]; discriminate.
    + rewrite (evaluate_body_float expr x He).
      destruct (float_round x); cbn [bind]; intros H;
        [injection H as <- |]; discriminate.
    + rewrite (evaluate_body_other expr _ He) by discriminate.
      intros H; injection H as <-; discriminate.
    + rewrite (evaluate_body_other expr _ He) by discriminate.
      intros H; injection H as <-; discriminate.
    + rewrite (evaluate_body_other expr _ He) by discriminate.
      intros H; injection H as <-; discriminate.
    + rewrite (evaluate_body_other expr _ He) by discriminate.
      intros H; injection H as <-; discriminate.
  - rewrite (evaluate_body_raise expr e He). discriminate.
Qed.

Lemma replacement_of_small (n : Z) :
  (n <= 1)%Z -> replacement_of py (VInt n) = Ok "1".
Proof.
  intros Hn. simpl. destruct (Z.ltb_spec n 1) as [_ | Hge]; [reflexivity |].
  replace n with 1%Z by lia. reflexivity.
Qed.

End EvaluatorFacts.


(** C1. Whenever a marker is replaced in a step's query, the text put in
    its place is exactly [1] if the expression names an identifier that is
    neither a bindings key nor an allowed function, or if evaluation fails,
    or if the evaluated value is a number below 1. *)
Theorem clamping (py : interpreter) (previous_results : bindings)
  (q param_expr : string) (m : found) :
  re_search inject_pattern q = Some m ->
  let substituted := substitute py (unwrap param_expr) previous_results in
  (missing_vars (unwrap param_expr) previous_results <> []
   \/ (exists e, py_eval py substituted = Raise e)
   \/ (exists v, py_eval py substituted = Ok v /\ less_than_one v = true)) ->
  inject_param py previous_results q param_expr
  = Ok (str_replace_first q (group0 m) "1").
Proof.
  intros Hm substituted Hcase. unfold inject_param.
  rewrite Hm, evaluate_injection_unfold. fold substituted.
  assert (Hone : forall r : py_result value,
             r = Ok (VInt 1) ->
             (injected_value <- r ;;
              replacement <- replacement_of py injected_value ;;
              Ok (str_replace_first q (group0 m) replacement))
             = Ok (str_replace_first q (group0 m) "1"))
    by (intros r ->; reflexivity).
  destruct (missing_vars (unwrap param_expr) previous_results) as [| name names];
    [| apply Hone; reflexivity].
  destruct Hcase as [Hmiss | [[e He] | [v [Hv Hlt]]]].
  - contradiction.
  - apply Hone. rewrite (evaluate_body_raise py _ e He). reflexivity.
  - destruct v as [n | x | b | s | | shown]; simpl in Hlt; try discriminate.
    + rewrite (evaluate_body_int py _ n Hv).
      destruct (int_str_ok n); [| apply Hone; reflexivity].
      cbn [bind]. apply Z.ltb_lt in Hlt.
      rewrite (replacement_of_small py n) by lia. reflexivity.
    + rewrite (evaluate_body_float py _ x Hv).
      destruct (float_round x) as [n | e] eqn:Hr; cbn [bind].
      * rewrite (replacement_of_small py n)
          by (apply (float_round_lt_one x); assumption).
        reflexivity.
      * reflexivity.
    + rewrite (evaluate_body_other py _ _ Hv) by discriminate.
      destruct b; [discriminate | reflexivity].
Qed.

Lemma clamping_witness :
  inject_param table_py [("total", VInt 0)]
    "SELECT ?x WHERE { ?x ?p ?o } LIMIT INJECT(total/4)" "INJECT(total/4)"
  = Ok "SELECT ?x WHERE { ?x ?p ?o } LIMIT 1".
Proof.
  apply (clamping table_py [("total", VInt 0)]
           "SELECT ?x WHERE { ?x ?p ?o } LIMIT INJECT(total/4)"
           "INJECT(total/4)"
           (mkFound (chars "SELECT ?x WHERE { ?x ?p ?o } LIMIT ")
              (chars "INJECT(total/4)") [] None)).
  - vm_compute. reflexivity.
  - right. right. exists (VFloat (S754_zero false)).
    split; vm_compute; reflexivity.
Defined.

(** C4. The missing-identifier check knows [int], [float], [round], [abs],
    [min] and [max] only: [ceil] and [floor], which the sandbox provides,
    are reported missing, so an expression that applies one of them to a
    bound variable gets the default 1 without being evaluated. *)
Theorem ceil_and_floor_reported_missing (py : interpreter) :
  missing_vars (unwrap "INJECT(ceil(total/2))") [("total", VInt 10882)] = ["ceil"]
  /\ _evaluate_injection py "INJECT(ceil(total/2))" [("total", VInt 10882)]
     = Ok (VInt 1)
  /\ missing_vars (unwrap "INJECT(floor(total/2))") [("total", VInt 10882)] = ["floor"]
  /\ _evaluate_injection py "INJECT(floor(total/2))" [("total", VInt 10882)]
     = Ok (VInt 1).
Proof.
  assert (Hc : missing_vars (unwrap "INJECT(ceil(total/2))")
                 [("total", VInt 10882)] = ["ceil"])
    by (vm_compute; reflexivity).
  assert (Hf : missing_vars (unwrap "INJECT(floor(total/2))")
                 [("total", VInt 10882)] = ["floor"])
    by (vm_compute; reflexivity).
  repeat split; try assumption;
    rewrite evaluate_injection_unfold; rewrite ?Hc, ?Hf; reflexivity.
Qed.

(** ** Dictionaries *)

Lemma dict_get_set_same {A : Type} (k : string) (v : A) (d : dict A) :
  dict_get k (dict_set k v d) = Some v.
Proof.
  induction d as [| [k' v'] d IH]; simpl.
  - rewrite String.eqb_refl. reflexivity.
  - destruct (String.eqb k k') eqn:E; simpl; rewrite E; [reflexivity | exact IH].
Qed.

Lemma dict_get_set_other {A : Type} (k k' : string) (v : A) (d : dict A) :
  k <> k' -> dict_get k (dict_set k' v d) = dict_get k d.
Proof.
  intros Hne. induction d as [| [k0 v0] d IH]; simpl.
  - apply String.eqb_neq in Hne. rewrite Hne. reflexivity.
  - destruct (String.eqb k' k0) eqn:E; simpl.
    + apply String.eqb_eq in E. subst k0.
      apply String.eqb_neq in Hne. rewrite Hne. reflexivity.
    + rewrite IH. reflexivity.
Qed.

(** ** The executor never raises on its own *)

Section ExecutorFacts.

Context {VS : Type}.
Variable py : interpreter.
Variable execute_query : VS -> string -> py_result response * VS.

Lemma evaluate_injection_ok (expression : string) (previous_results : bindings) :
  exists v, _evaluate_injection py expression previous_results = Ok v
            /\ forall x, v <> VFloat x.
Proof.
  rewrite evaluate_injection_unfold.
  destruct (missing_vars _ _); [| exists (VInt 1); split; [reflexivity | discriminate]].
  destruct (evaluate_body py _) as [v | e] eqn:Hbody.
  - exists v. split; [reflexivity |].
    apply (evaluate_body_not_float py _ v Hbody).
  - exists (VInt 1). split; [reflexivity | discriminate].
Qed.

Lemma replacement_of_ok (v : value) :
  (forall x, v <> VFloat x) -> exists s, replacement_of py v = Ok s.
Proof.
  intros Hv. destruct v as [n | x | b | s | | shown]; simpl.
  - eauto.
  - exfalso. apply (Hv x). reflexivity.
  - destruct b; eauto.
  - eauto.
  - eauto.
  - eauto.
Qed.

Lemma inject_param_ok (previous_results : bindings) (q param_expr : string) :
  exists q', inject_param py previous_results q param_expr = Ok q'.
Proof.
  unfold inject_param.
  destruct (evaluate_injection_ok param_expr previous_results) as [v [-> Hv]].
  cbn [bind]. destruct (re_search inject_pattern q); [| eauto].
  destruct (replacement_of_ok v Hv) as [s ->]. cbn [bind]. eauto.
Qed.

Lemma inject_params_loop_ok (previous_results : bindings) (params : list string) :
  forall q, exists q', inject_params_loop py previous_results q params = Ok q'.
Proof.
  induction params as [| p params IH]; intros q; simpl; [eauto |].
  destruct (inject_param_ok previous_results q p) as [q1 ->]. cbn [bind].
  apply IH.
Qed.

Lemma float_int_whole (x : spec_float) :
  float_is_integer x = true -> exists n, float_int x = Ok n.
Proof. destruct x; simpl; intros H; try discriminate; eauto. Qed.

(** What [store_value] keeps, by the shape of the raw value. *)
Lemma store_value_cases (raw_value : option string) :
  match raw_value with
  | Some s =>
      match py_float py s with
      | Some x =>
          if float_is_integer x
          then exists n, float_int x = Ok n /\ store_value py raw_value = Ok (VInt n)
          else store_value py raw_value = Ok (VFloat x)
      | None => store_value py raw_value = Ok (VStr s)
      end
  | None => store_value py raw_value = Ok VNone
  end.
Proof.
  unfold store_value. destruct raw_value as [s |]; [| reflexivity].
  destruct (py_float py s) as [x |]; [| reflexivity]. cbn [bind].
  destruct (float_is_integer x) eqn:Hw; [| reflexivity].
  destruct (float_int_whole x Hw) as [n Hn]. exists n.
  rewrite Hn. split; reflexivity.
Qed.

Lemma store_value_ok (raw_value : option string) :
  exists v, store_value py raw_value = Ok v.
Proof.
  pose proof (store_value_cases raw_value) as H.
  destruct raw_value as [s |]; [| eauto].
  destruct (py_float py s) as [x |]; [| eauto].
  destruct (float_is_integer x); [destruct H as [n [_ H]] |]; eauto.
Qed.

Lemma store_row_spec (first_row : row) :
  forall previous_results,
  exists merged,
    store_row py first_row previous_results = Ok merged
    /\ (forall var, ~ In var (map fst first_row) ->
                    dict_get var merged = dict_get var previous_results)
    /\ (NoDup (map fst first_row) ->
        forall var raw_value, In (var, raw_value) first_row ->
          exists v, store_value py raw_value = Ok v
                    /\ dict_get var merged = Some v).
Proof.
  induction first_row as [| [k raw] rest IH]; intros previous_results.
  - exists previous_results. simpl. repeat split; intros; tauto.
  - simpl. destruct (store_value_ok raw) as [v Hv]. rewrite Hv. cbn [bind].
    destruct (IH (dict_set k v previous_results)) as [merged [Hrun [Hout Hin]]].
    exists merged. split; [exact Hrun |]. split.
    + intros var Hnot. rewrite Hout by tauto.
      apply dict_get_set_other. intros ->. tauto.
    + intros Hnd var raw_value [Heq | Hrest].
      * injection Heq as <- <-. exists v. split; [exact Hv |].
        inversion Hnd; subst. rewrite Hout by assumption.
        apply dict_get_set_same.
      * inversion Hnd; subst. apply Hin; assumption.
Qed.

Lemma store_results_ok (results : response) (previous_results : bindings) :
  exists merged, store_results py results previous_results = Ok merged.
Proof.
  unfold store_results.
  destruct (results_bindings results) as [[| first_row rows] |].
  - destruct (boolean results); eauto.
  - destruct (store_row_spec first_row previous_results) as [merged [H _]]; eauto.
  - destruct (boolean results); eauto.
Qed.

End ExecutorFacts.

(** ** The calls of a run *)

Section RunFacts.

Context {VS : Type}.
Variable py : interpreter.
Variable execute_query : VS -> string -> py_result response * VS.

Lemma run_queries_sent (queries : list plan_step) :
  forall previous_results final_results w log,
    let r := run_queries py execute_query queries previous_results
               final_results w log in
    match outcome r with
    | Ok _ =>
        exists new, sent r = log ++ new
                    /\ List.length new = List.length queries
                    /\ forallb call_ok new = true
    | Raise e =>
        exists new q, sent r = log ++ new ++ [(q, Raise e)]
                      /\ forallb call_ok new = true
                      /\ List.length new < List.length queries
    end.
Proof.
  induction queries as [| step rest IH]; intros previous_results final_results w log.
  - simpl. exists []. rewrite app_nil_r. repeat split.
  - cbn [run_queries].
    destruct (inject_params_loop_ok py previous_results (inject_params step)
                (query step)) as [q ->].
    destruct (execute_query w q) as [[results | e] w'] eqn:Hcall.
    + destruct (store_results_ok py results previous_results) as [merged ->].
      specialize (IH merged (Some results) w' (log ++ [(q, Ok results)])).
      cbv zeta in IH.
      destruct (outcome (run_queries py execute_query rest merged
                           (Some results) w' (log ++ [(q, Ok results)]))).
      * destruct IH as [new [Hsent [Hlen Hok]]].
        exists ((q, Ok results) :: new). rewrite Hsent, <- app_assoc.
        simpl. rewrite Hlen, Hok. repeat split.
      * destruct IH as [new [q' [Hsent [Hok Hlen]]]].
        exists ((q, Ok results) :: new), q'. rewrite Hsent, <- app_assoc.
        simpl. rewrite Hok. repeat split. lia.
    + simpl. exists [], q. simpl. repeat split. lia.
Qed.

Lemma execute_sequential_calls (queries : list plan_step) (w : VS) :
  forall r w' log,
    _execute_sequential_queries py execute_query queries w = (r, w', log) ->
    match r with
    | Ok _ => all_steps_returned queries log
    | Raise e =>
        exists new q, log = new ++ [(q, Raise e)]
                      /\ forallb call_ok new = true
                      /\ List.length new < List.length queries
    end.
Proof.
  intros r w' log H. unfold _execute_sequential_queries in H.
  pose proof (run_queries_sent queries [] None w []) as Hrun.
  cbv zeta in Hrun. injection H as Hr _ Hlog. subst log.
  destruct (outcome (run_queries py execute_query queries [] None w []))
    as [final | e]; simpl in Hr; subst r.
  - destruct Hrun as [new [-> [Hlen Hok]]]. split; assumption.
  - destruct Hrun as [new [q [-> Hrest]]]. exists new, q. tauto.
Qed.



End RunFacts.

(** C5. When a step's call returns, its response is merged into the
    bindings before the rest of the plan runs.  From a table with at least
    one row, every variable of the first row is bound: to an integer when
    its raw value parses as a whole real, to a real when it parses as a
    real that is not whole, to the raw text otherwise; other names keep
    the value an earlier step gave them, and a name bound before is
    overwritten.  A response without rows that carries a boolean binds
    the key [boolean] to it. *)
Theorem first_row_merged (py : interpreter) {VS : Type}
  (execute_query : VS -> string -> py_result response * VS)
  (step : plan_step) (rest : list plan_step) (previous_results : bindings)
  (final_results : option response) (w w' : VS) (log : list call)
  (q : string) (results : response) :
  inject_params_loop py previous_results (query step) (inject_params step) = Ok q ->
  execute_query w q = (Ok results, w') ->
  exists merged,
    run_queries py execute_query (step :: rest) previous_results final_results w log
    = run_queries py execute_query rest merged (Some results) w'
        (log ++ [(q, Ok results)])
    /\ (forall first_row rows,
          results_bindings results = Some (first_row :: rows) ->
          NoDup (map fst first_row) ->
          (forall var s, In (var, Some s) first_row ->
             match py_float py s with
             | Some x =>
                 if float_is_integer x
                 then exists n, float_int x = Ok n
                                /\ dict_get var merged = Some (VInt n)
                 else dict_get var merged = Some (VFloat x)
             | None => dict_get var merged = Some (VStr s)
             end)
          /\ (forall var, ~ In var (map fst first_row) ->
                dict_get var merged = dict_get var previous_results))
    /\ (forall b,
          results_bindings results = None \/ results_bindings results = Some [] ->
          boolean results = Some b ->
          merged = dict_set "boolean" (VBool b) previous_results
          /\ dict_get "boolean" merged = Some (VBool b)).
Proof.
  intros Hq Hcall.
  destruct (store_results_ok py results previous_results) as [merged Hm].
  exists merged. split; [| split].
  - cbn [run_queries]. rewrite Hq, Hcall, Hm. reflexivity.
  - intros first_row rows Hrows Hnd. unfold store_results in Hm.
    rewrite Hrows in Hm.
    destruct (store_row_spec py first_row previous_results)
      as [merged' [Hrun [Hout Hin]]].
    rewrite Hrun in Hm. injection Hm as <-. split; [| exact Hout].
    intros var s Hvar. destruct (Hin Hnd var (Some s) Hvar) as [v [Hv Hget]].
    pose proof (store_value_cases py (Some s)) as Hcases. cbv beta iota in Hcases.
    destruct (py_float py s) as [x |].
    + destruct (float_is_integer x).
      * destruct Hcases as [n [Hn Hs]]. exists n. split; [exact Hn |]. congruence.
      * congruence.
    + congruence.
  - intros b Hnone Hb. unfold store_results in Hm. rewrite Hb in Hm.
    assert (merged = dict_set "boolean" (VBool b) previous_results) as ->
      by (destruct Hnone as [Hn | Hn]; rewrite Hn in Hm; congruence).
    split; [reflexivity | apply dict_get_set_same].
Qed.

(** ** The stages of the stream *)

Section StageFacts.

Context {VS : Type}.
Variable py : interpreter.
Variable env : collaborators VS.

Import StatusMessage.

Lemma yield_all_run (l : list string) :
  forall st : stream VS,
    yield_all l st
    = (Next tt, mkStream (frames st ++ l) (cache_calls st) (store st) (calls st)).
Proof.
  induction l as [| f l IH]; intros [fs cs w log]; simpl.
  - rewrite app_nil_r. reflexivity.
  - unfold gbind, yield. simpl. rewrite IH. simpl.
    rewrite <- app_assoc. reflexivity.
Qed.

Lemma stage3_run (user_query : string) (is_sequential : bool)
  (sparql_query : string) (sparql_queries : list plan_step)
  (sparql_results : option response) (st : stream VS) :
  stage3 env user_query is_sequential sparql_query sparql_queries sparql_results st
  = (Next tt,
     mkStream
       (frames st ++ [processing_results]
        ++ answer_frames env user_query
             (if is_sequential && negb (Nat.eqb (List.length sparql_queries) 0)
              then json_dumps env sparql_queries else sparql_query)
             sparql_results
        ++ [data_done])
       (cache_calls st) (store st) (calls st)).
Proof.
  unfold stage3, answer_frames.
  set (sq := if is_sequential && negb (Nat.eqb (List.length sparql_queries) 0)
             then json_dumps env sparql_queries else sparql_query).
  destruct st as [fs cs w log].
  unfold gbind, yield, try_gen, await. simpl.
  destruct (format_results env sparql_results sq) as [formatted | e]; simpl.
  - destruct (answer_stream env user_query sq formatted) as [chunks | e]; simpl.
    + rewrite yield_all_run. simpl.
      rewrite <- !app_assoc. reflexivity.
    + rewrite <- !app_assoc. reflexivity.
  - rewrite <- !app_assoc. reflexivity.
Qed.

(** Stage 1 yields at most its status frame and touches nothing else. *)
Lemma stage1_run (user_query : string) (cached_data : option string)
  (st : stream VS) :
  exists is_sequential sparql_query sparql_queries fs,
    stage1 env user_query cached_data st
    = (Next (is_sequential, sparql_query, sparql_queries),
       mkStream (frames st ++ fs) (cache_calls st) (store st) (calls st))
    /\ (fs = [] \/ fs = [generating_sparql]).
Proof.
  destruct st as [fr cs w log]. unfold stage1.
  destruct cached_data as [cached_sparql |].
  - exists (fst (fst (match json_loads env cached_sparql with
                      | Some (JList (q :: qs)) => (true, EmptyString, q :: qs)
                      | Some _ => (false, cached_sparql, [])
                      | None =>
                          if str_in "---split" cached_sparql
                             || str_in "---query" cached_sparql
                          then (true, EmptyString,
                                _parse_cached_sequential_sparql cached_sparql)
                          else (false, cached_sparql, [])
                      end))).
    destruct (json_loads env cached_sparql) as [[[| q qs] |] |];
      [| | | destruct (str_in "---split" cached_sparql
                       || str_in "---query" cached_sparql)];
      simpl; do 2 eexists; exists []; rewrite app_nil_r;
      (split; [reflexivity | left; reflexivity]).
  - unfold gbind, yield, try_gen, await, ret. simpl.
    destruct (generate_complete env user_query) as [raw | e]; simpl.
    + destruct (str_in "SELECT" raw).
      * destruct (detect_and_parse_sparql env raw) as [[steps | body] | e];
          simpl; do 3 eexists; exists [generating_sparql];
          (split; [reflexivity | right; reflexivity]).
      * do 3 eexists. exists [generating_sparql].
        split; [reflexivity | right; reflexivity].
    + do 3 eexists. exists [generating_sparql].
      split; [reflexivity | right; reflexivity].
Qed.

(** What the sequential branch of stage 2 does, by the outcome of the
    executor. *)
Lemma stage2_sequential_run (user_query sparql_query : string)
  (sparql_queries : list plan_step) (st : stream VS)
  (r : py_result response) (w' : VS) (log : list call) :
  _execute_sequential_queries py (execute_query env) sparql_queries (store st)
  = (r, w', log) ->
  let fs := frames st ++ [executing_query] in
  let payload := json_dumps env sparql_queries in
  stage2 py env user_query true sparql_query sparql_queries st
  = match r with
    | Raise _ =>
        (Next (false, None), mkStream fs (cache_calls st) w' (calls st ++ log))
    | Ok results =>
        if truthy results then
          if Nat.eqb (result_count results) 0 then
            (Next (true, Some results),
             mkStream (fs ++ [no_results]) (cache_calls st) w' (calls st ++ log))
          else
            (match cache_query env user_query payload with
             | Ok _ => Next (true, Some results)
             | Raise _ => Next (false, None)
             end,
             mkStream fs (cache_calls st ++ [(user_query, payload)]) w'
               (calls st ++ log))
        else
          (Returned,
           mkStream (fs ++ [no_data; data_done]) (cache_calls st) w'
             (calls st ++ log))
    end.
Proof.
  intros Hexec fs payload. subst fs payload. destruct st as [fr cs w log0].
  cbn [store] in Hexec.
  unfold stage2, gbind, yield, try_gen, execute_plan, no_data_path,
    count_and_cache, cache, return_, ret, gbind, yield.
  cbn -[_execute_sequential_queries]. rewrite Hexec.
  destruct r as [results | e]; [| reflexivity].
  destruct (truthy results); simpl.
  - destruct (Nat.eqb (result_count results) 0); simpl; [reflexivity |].
    destruct (cache_query env user_query (json_dumps env sparql_queries));
      reflexivity.
  - rewrite <- app_assoc. reflexivity.
Qed.

End StageFacts.

Section StreamFacts.

Context {VS : Type}.
Variable py : interpreter.
Variable env : collaborators VS.

Import StatusMessage.

(** The stream of a request whose cache lookup returned. *)
Lemma run_stream_unfold (request : NLQueryRequest) (w : VS)
  (cached_data : option string) (is_sequential : bool) (sparql_query : string)
  (sparql_queries : list plan_step) (st1 : stream VS) :
  get_cached_query env (cache_key request) = Ok cached_data ->
  stage1 env (effective_query request) cached_data (started w)
  = (Next (is_sequential, sparql_query, sparql_queries), st1) ->
  run_stream py env request w
  = match
      stage2 py env (effective_query request) is_sequential sparql_query
        sparql_queries st1
    with
    | (Next (is_sequential', sparql_results), st2) =>
        stage3 env (effective_query request) is_sequential' sparql_query
          sparql_queries sparql_results st2
    | (Failed e, st2) =>
        (yield (error ("Unexpected error: " ++ exn_text e) ++ nl) ;;;
         yield data_done) st2
    | (Returned, st2) => (Returned, st2)
    end.
Proof.
  intros Hcache Hstage1.
  unfold run_stream, response_stream, try_gen.
  unfold gbind at 1. unfold yield at 1. cbn [frames cache_calls store calls app].
  unfold gbind at 1. unfold await at 1.
  unfold cache_key in Hcache. rewrite Hcache.
  unfold gbind at 1. unfold started in Hstage1. rewrite Hstage1.
  unfold gbind at 1.
  destruct (stage2 py env (effective_query request) is_sequential sparql_query
              sparql_queries st1) as [[[is_sequential' sparql_results] | e |] st2];
    [| reflexivity | reflexivity].
  rewrite stage3_run. reflexivity.
Qed.

(** The stream of a sequential plan, by the outcome of its execution. *)
Lemma sequential_stream (request : NLQueryRequest) (w : VS)
  (cached_data : option string) (sparql_query : string)
  (sparql_queries : list plan_step) (st1 : stream VS)
  (r : py_result response) (w' : VS) (log : list call) :
  get_cached_query env (cache_key request) = Ok cached_data ->
  stage1 env (effective_query request) cached_data (started w)
  = (Next (true, sparql_query, sparql_queries), st1) ->
  _execute_sequential_queries py (execute_query env) sparql_queries w
  = (r, w', log) ->
  let user_query := effective_query request in
  let payload := json_dumps env sparql_queries in
  let fs := frames st1 ++ [executing_query] in
  let closing (sq : string) (results : option response) :=
    [processing_results] ++ answer_frames env user_query sq results ++ [data_done] in
  run_stream py env request w
  = match r with
    | Raise _ =>
        (Next tt, mkStream (fs ++ closing sparql_query None) [] w' log)
    | Ok results =>
        if truthy results then
          if Nat.eqb (result_count results) 0 then
            (Next tt,
             mkStream
               ((fs ++ [no_results])
                ++ closing
                     (if negb (Nat.eqb (List.length sparql_queries) 0)
                      then payload else sparql_query)
                     (Some results))
               [] w' log)
          else
            match cache_query env user_query payload with
            | Ok _ =>
                (Next tt,
                 mkStream
                   (fs ++ closing
                            (if negb (Nat.eqb (List.length sparql_queries) 0)
                             then payload else sparql_query)
                            (Some results))
                   [(user_query, payload)] w' log)
            | Raise _ =>
                (Next tt,
                 mkStream (fs ++ closing sparql_query None)
                   [(user_query, payload)] w' log)
            end
        else
          (Returned, mkStream (fs ++ [no_data; data_done]) [] w' log)
    end.
Proof.
  intros Hcache Hstage1 Hexec user_query payload fs closing.
  subst user_query payload fs closing. cbv beta.
  rewrite (run_stream_unfold request w cached_data true sparql_query
             sparql_queries st1 Hcache Hstage1).
  destruct (stage1_run env (effective_query request) cached_data (started w))
    as [b [sq [plan [fs1 [Hrun _]]]]].
  rewrite Hstage1 in Hrun. injection Hrun as _ _ _ Hst1.
  assert (Hstore : store st1 = w) by (rewrite Hst1; reflexivity).
  assert (Hcc : cache_calls st1 = []) by (rewrite Hst1; reflexivity).
  assert (Hcalls : calls st1 = []) by (rewrite Hst1; reflexivity).
  rewrite <- Hstore in Hexec.
  rewrite (stage2_sequential_run py env (effective_query request) sparql_query
             sparql_queries st1 r w' log Hexec).
  rewrite Hcc, Hcalls. cbn [app].
  destruct r as [results | e].
  - destruct (truthy results); [| reflexivity].
    destruct (Nat.eqb (result_count results) 0).
    + rewrite stage3_run. reflexivity.
    + destruct (cache_query env (effective_query request)
                  (json_dumps env sparql_queries));
        rewrite stage3_run; reflexivity.
  - rewrite stage3_run. reflexivity.
Qed.

End StreamFacts.

Lemma failing_call_is_last (log new : list call) (q q' : string) (e e' : exn) :
  log = new ++ [(q', Raise e')] -> forallb call_ok new = true ->
  In (q, Raise e) log -> q = q' /\ e = e'.
Proof.
  intros -> Hok Hin. apply in_app_or in Hin as [Hin | [Heq | []]].
  - rewrite forallb_forall in Hok. specialize (Hok _ Hin). discriminate.
  - injection Heq as -> ->. split; reflexivity.
Qed.

Lemma not_truthy_no_results (r : response) :
  truthy r = false -> result_count r = 0.
Proof.
  unfold truthy, result_count.
  destruct (results_bindings r) as [[| b bs] |]; destruct (boolean r);
    intros H; try discriminate; reflexivity.
Qed.

(** C2, as the code has it.  When a step's call to the triplestore fails,
    the executor stops at that call, nothing is handed to the cache, and
    the stream goes on to the contextualisation stage without results: its
    status frame, the frames of the answer, and the closing frame.  The
    no-data frame is not part of this path. *)
Theorem failed_plan_falls_through (py : interpreter) {VS : Type}
  (env : collaborators VS) (request : NLQueryRequest) (w w' : VS)
  (cached_data : option string) (sparql_query : string)
  (plan : list plan_step) (st1 : stream VS) (r : py_result response)
  (log : list call) (q : string) (e : exn) :
  get_cached_query env (cache_key request) = Ok cached_data ->
  stage1 env (effective_query request) cached_data (started w)
  = (Next (true, sparql_query, plan), st1) ->
  _execute_sequential_queries py (execute_query env) plan w = (r, w', log) ->
  In (q, Raise e) log ->
  (exists new, log = new ++ [(q, Raise e)]
               /\ forallb call_ok new = true
               /\ List.length new < List.length plan)
  /\ run_stream py env request w
     = (Next tt,
        mkStream
          (frames st1
           ++ [StatusMessage.executing_query; StatusMessage.processing_results]
           ++ answer_frames env (effective_query request) sparql_query None
           ++ [StatusMessage.data_done])
          [] w' log).
Proof.
  intros Hcache Hstage1 Hexec Hin.
  pose proof (execute_sequential_calls py (execute_query env) plan w r w' log Hexec)
    as Hcalls.
  pose proof (sequential_stream py env request w cached_data sparql_query plan
                st1 r w' log Hcache Hstage1 Hexec) as Hrun.
  cbv zeta in Hrun.
  destruct r as [results | e'].
  - destruct Hcalls as [_ Hok]. rewrite forallb_forall in Hok.
    specialize (Hok _ Hin). discriminate.
  - destruct Hcalls as [new [q' [Hlog [Hok Hlen]]]].
    destruct (failing_call_is_last log new q q' e e' Hlog Hok Hin) as [-> ->].
    split; [exists new; auto |].
    rewrite Hrun. rewrite <- app_assoc. reflexivity.
Qed.

Lemma failed_plan_falls_through_witness :
  run_stream table_py (cache_hit_env unreachable_store) epochs_request tt
  = (Next tt,
     mkStream
       [StatusMessage.processing_query; StatusMessage.executing_query;
        StatusMessage.processing_results; ("answer" ++ StatusMessage.nl)%string;
        StatusMessage.data_done]
       [] tt
       [(count_query, Raise (mkExn "ConnectionError" "triplestore unreachable"))]).
Proof.
  destruct (failed_plan_falls_through table_py (cache_hit_env unreachable_store)
              epochs_request tt tt (Some plan_text) EmptyString two_step_plan
              (started tt)
              (Raise (mkExn "ConnectionError" "triplestore unreachable"))
              [(count_query, Raise (mkExn "ConnectionError" "triplestore unreachable"))]
              count_query (mkExn "ConnectionError" "triplestore unreachable"))
    as [_ H].
  - reflexivity.
  - reflexivity.
  - vm_compute. reflexivity.
  - left. reflexivity.
  - exact H.
Defined.

(** C2 fails as stated: with a plan in the cache and a triplestore that
    cannot be reached, the stream carries an answer chunk and no no-data
    frame. *)
Lemma failed_plan_counterexample :
  calls (snd (run_stream table_py (cache_hit_env unreachable_store)
                epochs_request tt))
  = [(count_query, Raise (mkExn "ConnectionError" "triplestore unreachable"))]
  /\ In ("answer" ++ StatusMessage.nl)%string
       (frames (snd (run_stream table_py (cache_hit_env unreachable_store)
                       epochs_request tt)))
  /\ ~ In StatusMessage.no_data
         (frames (snd (run_stream table_py (cache_hit_env unreachable_store)
                         epochs_request tt))).
Proof.
  split; [vm_compute; reflexivity |]. split.
  - vm_compute. tauto.
  - vm_compute. intros H. repeat (destruct H as [H | H]; [discriminate H |]).
    exact H.
Qed.

(** C3, as the code has it.  A sequential plan is handed to the cache
    exactly when every step's call to the triplestore returned and the
    final response is not empty (it has a row or a boolean); what is handed
    over is [json.dumps] of the plan. *)
Theorem sequential_plan_cached_iff (py : interpreter) {VS : Type}
  (env : collaborators VS) (request : NLQueryRequest) (w w' : VS)
  (cached_data : option string) (sparql_query : string)
  (plan : list plan_step) (st1 : stream VS) (r : py_result response)
  (log : list call) :
  get_cached_query env (cache_key request) = Ok cached_data ->
  stage1 env (effective_query request) cached_data (started w)
  = (Next (true, sparql_query, plan), st1) ->
  _execute_sequential_queries py (execute_query env) plan w = (r, w', log) ->
  (cache_calls (snd (run_stream py env request w))
   = [(effective_query request, json_dumps env plan)]
   <-> all_steps_returned plan log
       /\ exists results, r = Ok results /\ result_count results <> 0)
  /\ (cache_calls (snd (run_stream py env request w)) = []
      \/ cache_calls (snd (run_stream py env request w))
         = [(effective_query request, json_dumps env plan)]).
Proof.
  intros Hcache Hstage1 Hexec.
  pose proof (execute_sequential_calls py (execute_query env) plan w r w' log Hexec)
    as Hcalls.
  rewrite (sequential_stream py env request w cached_data sparql_query plan
             st1 r w' log Hcache Hstage1 Hexec).
  cbv zeta.
  destruct r as [results | e].
  - destruct (truthy results) eqn:Ht.
    + destruct (Nat.eqb (result_count results) 0) eqn:Hc.
      * apply Nat.eqb_eq in Hc. cbn [snd cache_calls]. split; [| left; reflexivity].
        split; [discriminate |].
        intros [_ [results' [Hr Hn]]]. injection Hr as <-. contradiction.
      * apply Nat.eqb_neq in Hc.
        destruct (cache_query env (effective_query request) (json_dumps env plan));
          cbn [snd cache_calls];
          (split; [| right; reflexivity]);
          (split; [intros _; split; [exact Hcalls | eauto] | reflexivity]).
    + apply not_truthy_no_results in Ht. cbn [snd cache_calls].
      split; [| left; reflexivity]. split; [discriminate |].
      intros [_ [results' [Hr Hn]]]. injection Hr as <-. contradiction.
  - cbn [snd cache_calls]. split; [| left; reflexivity].
    split; [discriminate |]. intros [_ [results' [Hr _]]]. discriminate.
Qed.

Lemma sequential_plan_cached_iff_witness :
  cache_calls (snd (run_stream table_py (cache_hit_env counting_store)
                      epochs_request tt))
  = [("how many epochs?", plan_text)].
Proof.
  destruct (sequential_plan_cached_iff table_py (cache_hit_env counting_store)
              epochs_request tt tt (Some plan_text) EmptyString two_step_plan
              (started tt)
              (Ok (one_row "s" "http://example.org/s"))
              [(count_query, Ok (one_row "total" "10882"));
               ("SELECT ?s WHERE { ?s ?p ?o } LIMIT 5441",
                Ok (one_row "s" "http://example.org/s"))])
    as [[_ H] _].
  - reflexivity.
  - reflexivity.
  - vm_compute. reflexivity.
  - apply H. split.
    + split; reflexivity.
    + exists (one_row "s" "http://example.org/s"). split; [reflexivity |].
      vm_compute. discriminate.
Defined.

(** C3 fails as stated: every step's call returns, the final table is
    empty, and nothing is handed to the cache. *)
Lemma sequential_plan_cached_counterexample :
  all_steps_returned two_step_plan
    (calls (snd (run_stream table_py (cache_hit_env empty_store)
                   epochs_request tt)))
  /\ cache_calls (snd (run_stream table_py (cache_hit_env empty_store)
                         epochs_request tt)) = [].
Proof.
  split; [split |]; vm_compute; reflexivity.
Qed.

Section SingleFacts.

Context {VS : Type}.
Variable py : interpreter.
Variable env : collaborators VS.

Import StatusMessage.

(** What the single-query branch of stage 2 does. *)
Lemma stage2_single_run (user_query sparql_query : string)
  (sparql_queries : list plan_step) (st : stream VS) :
  stage2 py env user_query false sparql_query sparql_queries st
  = if String.eqb sparql_query EmptyString then
      (Returned,
       mkStream (frames st ++ [no_data; data_done]) (cache_calls st) (store st)
         (calls st))
    else
      let '(r, w') := execute_query env (store st) sparql_query in
      let fs := frames st ++ [executing_query] in
      let log := calls st ++ [(sparql_query, r)] in
      match r with
      | Raise _ =>
          (Returned, mkStream (fs ++ [no_data; data_done]) (cache_calls st) w' log)
      | Ok results =>
          if Nat.eqb (result_count results) 0 then
            (Next (false, Some results),
             mkStream (fs ++ [no_results]) (cache_calls st) w' log)
          else
            match cache_query env user_query sparql_query with
            | Ok _ =>
                (Next (false, Some results),
                 mkStream fs (cache_calls st ++ [(user_query, sparql_query)]) w' log)
            | Raise _ =>
                (Returned,
                 mkStream (fs ++ [no_data; data_done])
                   (cache_calls st ++ [(user_query, sparql_query)]) w' log)
            end
      end.
Proof.
  destruct st as [fr cs w log0].
  unfold stage2, gbind, yield, try_gen, execute_single, no_data_path,
    count_and_cache, cache, return_, ret, gbind, yield.
  destruct (String.eqb sparql_query EmptyString); cbn.
  - rewrite <- app_assoc. reflexivity.
  - destruct (execute_query env w sparql_query) as [[results | e] w']; cbn.
    + destruct (Nat.eqb (result_count results) 0); cbn; [reflexivity |].
      destruct (cache_query env user_query sparql_query); cbn;
        rewrite <- ?app_assoc; reflexivity.
    + rewrite <- ?app_assoc. reflexivity.
Qed.

Lemma done_after (a b : list string) :
  (exists fs, b = fs ++ [data_done]) -> exists fs, a ++ b = fs ++ [data_done].
Proof. intros [fs ->]. exists (a ++ fs). apply app_assoc. Qed.

Lemma done_alone : exists fs, [data_done] = fs ++ [data_done].
Proof. exists []. reflexivity. Qed.

Lemma done_after_no_data : exists fs, [no_data; data_done] = fs ++ [data_done].
Proof. exists [no_data]. reflexivity. Qed.

(** Once stage 2 is resolved, run stage 3 if it is reached and peel the
    frames off the front until the closing one is left. *)
Ltac closes_with_done :=
  rewrite ?stage3_run; cbn [fst snd frames];
  (split; [tauto |]);
  repeat (apply done_after);
  first [apply done_alone | apply done_after_no_data].

(** No exception leaves the generator, and its last frame is the closing
    one. *)
Lemma no_exception_escapes (request : NLQueryRequest) (w : VS) :
  (fst (run_stream py env request w) = Next tt
   \/ fst (run_stream py env request w) = Returned)
  /\ exists fs,
       frames (snd (run_stream py env request w)) = fs ++ [data_done].
Proof.
  destruct (get_cached_query env (cache_key request)) as [cached_data | e]
    eqn:Hcache.
  - destruct (stage1_run env (effective_query request) cached_data (started w))
      as [b [sq [plan [fs1 [Hstage1 _]]]]].
    match type of Hstage1 with _ = (_, ?s) => set (st1 := s) in * end.
    rewrite (run_stream_unfold py env request w cached_data b sq plan st1
               Hcache Hstage1).
    destruct b.
    + destruct (_execute_sequential_queries py (execute_query env) plan w)
        as [[r w'] log] eqn:Hexec.
      rewrite (stage2_sequential_run py env (effective_query request) sq plan
                 st1 r w' log Hexec).
      cbv zeta.
      destruct r as [results | e];
        [destruct (truthy results);
         [destruct (Nat.eqb (result_count results) 0);
          [| destruct (cache_query env (effective_query request)
                        (json_dumps env plan))] |] |];
        closes_with_done.
    + rewrite stage2_single_run.
      destruct (String.eqb sq EmptyString).
      * closes_with_done.
      * subst st1. unfold started. cbn [store frames cache_calls calls].
        destruct (execute_query env w sq) as [[results | e] w'];
          [destruct (Nat.eqb (result_count results) 0);
           [| destruct (cache_query env (effective_query request) sq)] |];
          closes_with_done.
  - unfold run_stream, response_stream, try_gen, gbind, yield, await.
    unfold cache_key in Hcache. cbn. rewrite Hcache. cbn.
    split; [tauto |].
    exists [processing_query;
            (error ("Unexpected error: " ++ exn_text e) ++ nl)%string].
    reflexivity.
Qed.

End SingleFacts.

(** C5 at work: the count of the first step replaces the value bound to
    [total] before, and [page] keeps its value. *)
Lemma first_row_merged_witness :
  exists merged,
    run_queries table_py counting_store two_step_plan
      [("total", VInt 7); ("page", VInt 3)] None tt []
    = run_queries table_py counting_store (tl two_step_plan) merged
        (Some (one_row "total" "10882")) tt
        [(count_query, Ok (one_row "total" "10882"))]
    /\ dict_get "total" merged = Some (VInt 10882)
    /\ dict_get "page" merged = Some (VInt 3).
Proof.
  destruct (first_row_merged table_py counting_store
              (mkStep count_query []) (tl two_step_plan)
              [("total", VInt 7); ("page", VInt 3)] None tt tt []
              count_query (one_row "total" "10882"))
    as [merged [Hrun [Hrows _]]].
  - reflexivity.
  - reflexivity.
  - exists merged. split; [exact Hrun |].
    destruct (Hrows [("total", Some "10882")] [] eq_refl) as [Hin Hout].
    + constructor; [intros [] | constructor].
    + split.
      * specialize (Hin "total" "10882" (or_introl eq_refl)).
        cbv in Hin. destruct Hin as [n [Hn Hget]].
        injection Hn as <-. exact Hget.
      * rewrite (Hout "page"); [reflexivity |].
        intros [H | []]. discriminate H.
Defined.

(** C8, as the code has it.  On a cache miss the answer of the language
    model goes to the parser only if it contains the text [SELECT]: without
    it the response is classified empty and the stream takes the no-data
    path; with it, and a parser that answers with a single query, the
    request is classified Single with that body, which is the query sent
    to the triplestore unless it is empty. *)
Theorem response_classified_by_select (py : interpreter) {VS : Type}
  (env : collaborators VS) (request : NLQueryRequest) (w : VS) (raw : string) :
  get_cached_query env (cache_key request) = Ok None ->
  generate_complete env (effective_query request) = Ok raw ->
  let st1 :=
    mkStream [StatusMessage.processing_query; StatusMessage.generating_sparql]
      [] w [] in
  let no_data_stream :=
    (@Returned unit,
     mkStream [StatusMessage.processing_query; StatusMessage.generating_sparql;
               StatusMessage.no_data; StatusMessage.data_done] [] w []) in
  (str_in "SELECT" raw = false ->
   stage1 env (effective_query request) None (started w)
   = (Next (false, EmptyString, []), st1)
   /\ run_stream py env request w = no_data_stream)
  /\ (forall body,
        str_in "SELECT" raw = true ->
        detect_and_parse_sparql env raw = Ok (Single body) ->
        stage1 env (effective_query request) None (started w)
        = (Next (false, body, []), st1)
        /\ (body <> EmptyString ->
            calls (snd (run_stream py env request w))
            = [(body, fst (execute_query env w body))])
        /\ (body = EmptyString -> run_stream py env request w = no_data_stream)).
Proof.
  intros Hcache Hgen st1 no_data_stream. split.
  - intros Hsel.
    assert (Hstage1 : stage1 env (effective_query request) None (started w)
                      = (Next (false, EmptyString, []), st1)).
    { unfold stage1, gbind, yield, try_gen, await, ret. cbn.
      rewrite Hgen, Hsel. reflexivity. }
    split; [exact Hstage1 |].
    rewrite (run_stream_unfold py env request w None false EmptyString [] st1
               Hcache Hstage1).
    rewrite stage2_single_run. reflexivity.
  - intros body Hsel Hparse.
    assert (Hstage1 : stage1 env (effective_query request) None (started w)
                      = (Next (false, body, []), st1)).
    { unfold stage1, gbind, yield, try_gen, await, ret. cbn.
      rewrite Hgen, Hsel, Hparse. reflexivity. }
    split; [exact Hstage1 |].
    rewrite (run_stream_unfold py env request w None false body [] st1
               Hcache Hstage1).
    rewrite stage2_single_run. split.
    + intros Hbody. apply String.eqb_neq in Hbody. rewrite Hbody.
      subst st1. cbn [store frames cache_calls calls].
      destruct (execute_query env w body) as [[results | e] w'];
        [destruct (Nat.eqb (result_count results) 0);
         [| destruct (cache_query env (effective_query request) body)] |];
        rewrite ?stage3_run; reflexivity.
    + intros ->. reflexivity.
Qed.

Lemma response_classified_by_select_witness :
  calls (snd (run_stream table_py (cache_miss_env select_response)
                epochs_request tt))
  = [(select_response, Ok (one_row "s" "http://example.org/s"))].
Proof.
  destruct (response_classified_by_select table_py
              (cache_miss_env select_response) epochs_request tt
              select_response) as [_ H].
  - reflexivity.
  - reflexivity.
  - destruct (H select_response) as [_ [Hcalls _]].
    + vm_compute. reflexivity.
    + reflexivity.
    + apply Hcalls. discriminate.
Defined.

(** C8 fails as stated: an answer whose top-level form is [ASK], which the
    parser would hand back as a single query, is classified empty and the
    stream takes the no-data path. *)
Lemma ask_response_counterexample :
  detect_and_parse_sparql (cache_miss_env ask_response) ask_response
  = Ok (Single ask_response)
  /\ stage1 (cache_miss_env ask_response) (effective_query epochs_request) None
       (started tt)
     = (Next (false, EmptyString, []),
        mkStream [StatusMessage.processing_query; StatusMessage.generating_sparql]
          [] tt [])
  /\ run_stream table_py (cache_miss_env ask_response) epochs_request tt
     = (Returned,
        mkStream [StatusMessage.processing_query; StatusMessage.generating_sparql;
                  StatusMessage.no_data; StatusMessage.data_done] [] tt []).
Proof.
  split; [reflexivity |]. split; vm_compute; reflexivity.
Qed.

(** C7 at the failing input: when the cache cannot be reached the failure
    is serialised with [StatusMessage.error], whose frame starts with
    [Error: ] and not with [error: ]; this holds of every frame that
    [StatusMessage.error] builds. *)
Theorem pipeline_error_frame_prefix :
  run_stream table_py cache_down_env epochs_request tt
  = (Next tt,
     mkStream [StatusMessage.processing_query; cache_down_frame;
               StatusMessage.data_done] [] tt [])
  /\ str_startswith cache_down_frame "error: " = false
  /\ (forall message,
        str_startswith (StatusMessage.error message) "error: " = false)
  /\ (forall message,
        str_startswith (StatusMessage.error message) "Error: " = true).
Proof.
  split; [vm_compute; reflexivity |].
  split; [vm_compute; reflexivity |].
  split; intros message; reflexivity.
Qed.

(** C9 at the failing input: the legacy parser looks for [INJECT(] only, up
    to the first closing parenthesis.  A step whose marker is spelled
    [INJECT_FROM_PREVIOUS(...)] gets no marker, although the executor's
    pattern finds it in the same body; a marker that holds a call is cut
    at the call's closing parenthesis. *)
Theorem legacy_parser_misses_markers :
  _parse_cached_sequential_sparql legacy_text
  = [mkStep count_query []; mkStep legacy_page_query []]
  /\ option_map group0 (re_search inject_pattern legacy_page_query)
     = Some "INJECT_FROM_PREVIOUS(total)"
  /\ _parse_cached_sequential_sparql legacy_nested_text
     = [mkStep legacy_nested_query ["INJECT(max(total, 10)"]]
  /\ option_map group0 (re_search inject_pattern legacy_nested_query)
     = Some "INJECT(max(total, 10))".
Proof.
  repeat split; vm_compute; reflexivity.
Qed.

(** * Further properties of the code *)

(** ** Injection *)

Section InjectionFacts.

Variable py : interpreter.

Lemma clamp_is_max (n : Z) :
  (if (n <? 1)%Z then 1%Z else n) = Z.max 1 n.
Proof. destruct (Z.ltb_spec n 1); lia. Qed.

Lemma replacement_of_int (n : Z) :
  replacement_of py (VInt n) = Ok (str_of_int (Z.max 1 n)).
Proof. cbn [replacement_of]. rewrite clamp_is_max. reflexivity. Qed.

(** A query that holds no marker passes the loop unchanged. *)
Lemma inject_params_loop_no_marker (previous_results : bindings) (q : string)
  (params : list string) :
  re_search inject_pattern q = None ->
  inject_params_loop py previous_results q params = Ok q.
Proof.
  intros Hnone. induction params as [| p params IH]; [reflexivity |].
  cbn [inject_params_loop]. unfold inject_param.
  destruct (evaluate_injection_ok py p previous_results) as [v [-> _]].
  cbn [bind]. rewrite Hnone. cbn [bind]. exact IH.
Qed.

End InjectionFacts.

(** X1. When the expression of a marker evaluates to a number, the marker
    is replaced by a decimal integer that is at least 1: an integer [k]
    of at most 4300 digits gives [max(1, k)]; an integer of more digits
    gives 1, because formatting it into the log line raises inside the
    [try]; a real gives [max(1, round(x))]; and a boolean gives 1. *)
Theorem numeric_injection_at_least_one (py : interpreter)
  (previous_results : bindings) (q param_expr : string) (m : found) :
  re_search inject_pattern q = Some m ->
  missing_vars (unwrap param_expr) previous_results = [] ->
  let substituted := substitute py (unwrap param_expr) previous_results in
  let replaced_by (t : string) :=
    inject_param py previous_results q param_expr
    = Ok (str_replace_first q (group0 m) t) in
  (forall k, py_eval py substituted = Ok (VInt k) ->
             (Z.abs k < 10 ^ int_max_str_digits)%Z ->
             replaced_by (str_of_int (Z.max 1 k)))
  /\ (forall k, py_eval py substituted = Ok (VInt k) ->
                (10 ^ int_max_str_digits <= Z.abs k)%Z ->
                replaced_by "1")
  /\ (forall x k, py_eval py substituted = Ok (VFloat x) ->
                  float_round x = Ok k ->
                  replaced_by (str_of_int (Z.max 1 k)))
  /\ (forall b, py_eval py substituted = Ok (VBool b) -> replaced_by "1").
Proof.
  intros Hm Hmiss substituted replaced_by. subst replaced_by. cbv beta.
  unfold inject_param. rewrite Hm, evaluate_injection_unfold, Hmiss.
  fold substituted.
  split; [| split; [| split]].
  - intros k Hk Hlim. rewrite (evaluate_body_int py _ k Hk).
    apply Z.ltb_lt in Hlim. unfold int_str_ok. rewrite Hlim.
    cbn [bind]. rewrite replacement_of_int. reflexivity.
  - intros k Hk Hlim. rewrite (evaluate_body_int py _ k Hk).
    apply Z.ltb_ge in Hlim. unfold int_str_ok. rewrite Hlim. reflexivity.
  - intros x k Hx Hr. rewrite (evaluate_body_float py _ x Hx), Hr.
    cbn [bind]. rewrite replacement_of_int. reflexivity.
  - intros b Hb. rewrite (evaluate_body_other py _ _ Hb) by discriminate.
    destruct b; reflexivity.
Qed.

Lemma numeric_injection_at_least_one_witness :
  inject_param table_py [("total", VInt 10882)] page_query "INJECT(total/2)"
  = Ok "SELECT ?s WHERE { ?s ?p ?o } LIMIT 5441"
  /\ inject_param power_py [] power_query "INJECT(10**4300)"
     = Ok "SELECT ?s WHERE { ?s ?p ?o } LIMIT 1".
Proof.
  split.
  - destruct (numeric_injection_at_least_one table_py [("total", VInt 10882)]
                page_query "INJECT(total/2)"
                (mkFound (chars "SELECT ?s WHERE { ?s ?p ?o } LIMIT ")
                   (chars "INJECT(total/2)") [] None))
      as [_ [_ [Hfloat _]]].
    + vm_compute. reflexivity.
    + vm_compute. reflexivity.
    + apply (Hfloat (S754_finite false 5441 0) 5441%Z); vm_compute; reflexivity.
  - destruct (numeric_injection_at_least_one power_py [] power_query
                "INJECT(10**4300)"
                (mkFound (chars "SELECT ?s WHERE { ?s ?p ?o } LIMIT ")
                   (chars "INJECT(10**4300)") [] None))
      as [_ [Hover _]].
    + vm_compute. reflexivity.
    + vm_compute. reflexivity.
    + apply (Hover (10 ^ 4300)%Z).
      * reflexivity.
      * apply Z.leb_le. vm_compute. reflexivity.
Defined.

(** X2. When the expression of a marker evaluates to something that is not
    a number (a text, [None], any other object), the marker is replaced by
    [str] of that value as it is: no rounding and no clamping take
    place. *)
Theorem other_injection_verbatim (py : interpreter)
  (previous_results : bindings) (q param_expr : string) (m : found) (v : value) :
  re_search inject_pattern q = Some m ->
  missing_vars (unwrap param_expr) previous_results = [] ->
  py_eval py (substitute py (unwrap param_expr) previous_results) = Ok v ->
  is_number v = false ->
  inject_param py previous_results q param_expr
  = Ok (str_replace_first q (group0 m) (py_str py v)).
Proof.
  intros Hm Hmiss Hv Hnum.
  unfold inject_param. rewrite Hm, evaluate_injection_unfold, Hmiss.
  unfold evaluate_body. rewrite Hv.
  destruct v; try discriminate; reflexivity.
Qed.

Lemma other_injection_verbatim_witness :
  inject_param text_py [("name", VStr "Alice")] name_query "INJECT(name)"
  = Ok "SELECT ?s WHERE { ?s ?p Alice }".
Proof.
  apply (other_injection_verbatim text_py [("name", VStr "Alice")] name_query
           "INJECT(name)"
           (mkFound (chars "SELECT ?s WHERE { ?s ?p ") (chars "INJECT(name)")
              (chars " }") None)
           (VStr "Alice")).
  - vm_compute. reflexivity.
  - vm_compute. reflexivity.
  - vm_compute. reflexivity.
  - reflexivity.
Defined.

(** ** The executor *)

Section PlanFacts.

Context {VS : Type}.
Variable py : interpreter.
Variable execute_query : VS -> string -> py_result response * VS.

Lemma dict_mem_set {A : Type} (k k' : string) (v : A) (d : dict A) :
  dict_mem k d = true -> dict_mem k (dict_set k' v d) = true.
Proof.
  unfold dict_mem. destruct (String.eqb_spec k k') as [-> | Hne].
  - intros _. rewrite dict_get_set_same. reflexivity.
  - rewrite dict_get_set_other by assumption. trivial.
Qed.

Lemma store_row_keeps (first_row : row) :
  forall previous_results merged k,
    store_row py first_row previous_results = Ok merged ->
    dict_mem k previous_results = true -> dict_mem k merged = true.
Proof.
  induction first_row as [| [var raw] rest IH]; intros previous_results merged k.
  - simpl. intros H. injection H as <-. trivial.
  - simpl. destruct (store_value_ok py raw) as [v ->]. cbn [bind].
    intros Hrun Hk. apply (IH _ _ _ Hrun). apply dict_mem_set. exact Hk.
Qed.

Lemma store_results_keeps (results : response) (previous_results merged : bindings)
  (k : string) :
  store_results py results previous_results = Ok merged ->
  dict_mem k previous_results = true -> dict_mem k merged = true.
Proof.
  unfold store_results.
  destruct (results_bindings results) as [[| first_row rows] |].
  - destruct (boolean results); intros H; injection H as <-;
      [apply dict_mem_set | trivial].
  - apply store_row_keeps.
  - destruct (boolean results); intros H; injection H as <-;
      [apply dict_mem_set | trivial].
Qed.

(** The response a run ends with is the one of its last call. *)
Lemma run_queries_final (queries : list plan_step) :
  forall previous_results final_results w log f,
    outcome (run_queries py execute_query queries previous_results
               final_results w log) = Ok f ->
    (queries = [] /\ f = final_results)
    \/ exists front q r,
         sent (run_queries py execute_query queries previous_results
                 final_results w log) = front ++ [(q, Ok r)]
         /\ f = Some r.
Proof.
  induction queries as [| step rest IH];
    intros previous_results final_results w log f.
  - simpl. intros H. injection H as <-. left. split; reflexivity.
  - cbn [run_queries].
    destruct (inject_params_loop_ok py previous_results (inject_params step)
                (query step)) as [q ->].
    destruct (execute_query w q) as [[results | e] w'].
    + destruct (store_results_ok py results previous_results) as [merged ->].
      intros Hout. right.
      destruct (IH merged (Some results) w' (log ++ [(q, Ok results)]) f Hout)
        as [[-> ->] | Hlast].
      * simpl. exists log, q, results. split; reflexivity.
      * exact Hlast.
    + simpl. discriminate.
Qed.

(** The queries sent are the bodies of the steps, as long as no body holds
    a marker. *)
Lemma run_queries_verbatim (queries : list plan_step) :
  Forall (fun step => re_search inject_pattern (query step) = None) queries ->
  forall previous_results final_results w log,
    exists new,
      sent (run_queries py execute_query queries previous_results
              final_results w log) = log ++ new
      /\ map fst new = firstn (List.length new) (map query queries).
Proof.
  induction queries as [| step rest IH]; intros Hall previous_results
    final_results w log.
  - simpl. exists []. rewrite app_nil_r. split; reflexivity.
  - inversion Hall as [| ? ? Hstep Hrest]; subst. cbn [run_queries].
    rewrite (inject_params_loop_no_marker py previous_results (query step)
               (inject_params step) Hstep).
    destruct (execute_query w (query step)) as [[results | e] w'].
    + destruct (store_results_ok py results previous_results) as [merged ->].
      destruct (IH Hrest merged (Some results) w'
                  (log ++ [(query step, Ok results)])) as [new [Hsent Hnew]].
      exists ((query step, Ok results) :: new).
      rewrite Hsent, <- app_assoc. split; [reflexivity |].
      simpl. rewrite Hnew. reflexivity.
    + simpl. exists [(query step, Raise e)]. split; reflexivity.
Qed.

Lemma run_queries_bound_keeps (queries : list plan_step) :
  forall previous_results final_results w log k,
    dict_mem k previous_results = true ->
    dict_mem k (bound (run_queries py execute_query queries previous_results
                         final_results w log)) = true.
Proof.
  induction queries as [| step rest IH];
    intros previous_results final_results w log k Hk.
  - exact Hk.
  - cbn [run_queries].
    destruct (inject_params_loop py previous_results (query step)
                (inject_params step)) as [q | e]; [| exact Hk].
    destruct (execute_query w q) as [[results | e] w']; [| exact Hk].
    destruct (store_results py results previous_results) as [merged | e] eqn:Hm;
      [| exact Hk].
    apply IH. apply (store_results_keeps results previous_results merged k Hm Hk).
Qed.

End PlanFacts.



(** X4. A plan stops at the first call that fails: the calls made are
    calls that returned followed by the failing one, fewer calls returned
    than the plan has steps, and the exception that leaves the executor is
    the one the triplestore raised. *)
Theorem executor_stops_at_first_failure (py : interpreter) {VS : Type}
  (execute_query : VS -> string -> py_result response * VS)
  (queries : list plan_step) (w w' : VS) (e : exn) (log : list call) :
  _execute_sequential_queries py execute_query queries w = (Raise e, w', log) ->
  exists returned q,
    log = returned ++ [(q, Raise e)]
    /\ forallb call_ok returned = true
    /\ List.length returned < List.length queries.
Proof.
  intros H.
  exact (execute_sequential_calls py execute_query queries w _ w' log H).
Qed.

Lemma executor_stops_at_first_failure_witness :
  exists returned q,
    [(count_query, Ok (one_row "total" "10882"));
     ("SELECT ?s WHERE { ?s ?p ?o } LIMIT 5441",
      Raise (mkExn "ConnectionError" "triplestore unreachable"))]
    = returned ++ [(q, Raise (mkExn "ConnectionError" "triplestore unreachable"))]
    /\ forallb call_ok returned = true
    /\ List.length returned < List.length two_step_plan.
Proof.
  apply (executor_stops_at_first_failure table_py failing_after_count
           two_step_plan tt tt).
  vm_compute. reflexivity.
Defined.

(** X5. A run never unbinds a name: whatever the plan and whatever the
    triplestore answers, a key of the bindings at the start of a run is a
    key of the bindings at its end, also when the run is aborted. *)
Theorem bindings_only_grow (py : interpreter) {VS : Type}
  (execute_query : VS -> string -> py_result response * VS)
  (queries : list plan_step) (previous_results : bindings)
  (final_results : option response) (w : VS) (log : list call) (k : string) :
  dict_mem k previous_results = true ->
  dict_mem k (bound (run_queries py execute_query queries previous_results
                       final_results w log)) = true.
Proof. apply run_queries_bound_keeps. Qed.

Lemma bindings_only_grow_witness :
  dict_mem "page"
    (bound (run_queries table_py counting_store two_step_plan
              [("total", VInt 7); ("page", VInt 3)] None tt [])) = true.
Proof.
  apply (bindings_only_grow table_py counting_store two_step_plan
           [("total", VInt 7); ("page", VInt 3)] None tt [] "page").
  reflexivity.
Defined.

(** X6. What the executor returns is the response of the last step, or the
    empty object when that response is an empty object; for the empty plan
    it returns the empty object without a call. *)
Theorem executor_returns_last_response (py : interpreter) {VS : Type}
  (execute_query : VS -> string -> py_result response * VS)
  (queries : list plan_step) (w w' : VS) (results : response)
  (log : list call) :
  _execute_sequential_queries py execute_query queries w = (Ok results, w', log) ->
  (queries = [] /\ log = [] /\ results = empty_response)
  \/ exists front q r,
       log = front ++ [(q, Ok r)]
       /\ results = (if truthy r then r else empty_response).
Proof.
  unfold _execute_sequential_queries. intros H. injection H as Hr _ Hlog.
  destruct (outcome (run_queries py execute_query queries [] None w []))
    as [f | e] eqn:Hout; [| discriminate].
  cbn [bind] in Hr. injection Hr as <-.
  destruct (run_queries_final py execute_query queries [] None w [] f Hout)
    as [[-> ->] | [front [q [r [Hsent ->]]]]].
  - left. simpl in Hlog. subst log. repeat split.
  - right. exists front, q, r. rewrite <- Hlog, Hsent. split; reflexivity.
Qed.

Lemma executor_returns_last_response_witness :
  exists front q r,
    [(count_query, Ok (one_row "total" "10882"));
     ("SELECT ?s WHERE { ?s ?p ?o } LIMIT 5441",
      Ok (one_row "s" "http://example.org/s"))]
    = front ++ [(q, Ok r)]
    /\ one_row "s" "http://example.org/s"
       = (if truthy r then r else empty_response).
Proof.
  destruct (executor_returns_last_response table_py counting_store
              two_step_plan tt tt (one_row "s" "http://example.org/s")
              [(count_query, Ok (one_row "total" "10882"));
               ("SELECT ?s WHERE { ?s ?p ?o } LIMIT 5441",
                Ok (one_row "s" "http://example.org/s"))])
    as [[H _] | H].
  - vm_compute. reflexivity.
  - discriminate H.
  - exact H.
Defined.

(** X7. Steps whose bodies hold no marker are sent to the triplestore as
    they are and in plan order, whatever their [inject_params] list: the
    queries of the calls made are the bodies of the first steps of the
    plan. *)
Theorem markerless_plan_sent_verbatim (py : interpreter) {VS : Type}
  (execute_query : VS -> string -> py_result response * VS)
  (queries : list plan_step) (w w' : VS) (r : py_result response)
  (log : list call) :
  Forall (fun step => re_search inject_pattern (query step) = None) queries ->
  _execute_sequential_queries py execute_query queries w = (r, w', log) ->
  map fst log = firstn (List.length log) (map query queries).
Proof.
  intros Hall H. unfold _execute_sequential_queries in H.
  injection H as _ _ Hlog.
  destruct (run_queries_verbatim py execute_query queries Hall [] None w [])
    as [new [Hsent Hnew]].
  rewrite <- Hlog, Hsent. exact Hnew.
Qed.

Lemma markerless_plan_sent_verbatim_witness :
  map fst [(count_query, Ok (one_row "total" "10882"))]
  = firstn 1 (map query [mkStep count_query ["INJECT(total)"]]).
Proof.
  apply (markerless_plan_sent_verbatim table_py counting_store
           [mkStep count_query ["INJECT(total)"]] tt tt
           (Ok (one_row "total" "10882"))
           [(count_query, Ok (one_row "total" "10882"))]).
  - constructor; [vm_compute; reflexivity | constructor].
  - vm_compute. reflexivity.
Defined.

(** ** Stripping *)

Lemma chars_text (l : list ascii) : chars (text l) = l.
Proof. apply list_ascii_of_string_of_list_ascii. Qed.

Lemma text_chars (s : string) : text (chars s) = s.
Proof. apply string_of_list_ascii_of_string. Qed.

Lemma lstrip_clean (l : list ascii) : clean_start (lstrip l).
Proof.
  induction l as [| c l IH]; simpl; [exact I |].
  destruct (is_space c) eqn:E; [exact IH | exact E].
Qed.

Lemma lstrip_of_clean (l : list ascii) : clean_start l -> lstrip l = l.
Proof. destruct l as [| c l]; simpl; [reflexivity | intros ->; reflexivity]. Qed.

Lemma lstrip_keeps_last (x : list ascii) (c : ascii) :
  is_space c = false -> exists y, lstrip (x ++ [c]) = y ++ [c].
Proof.
  intros Hc. induction x as [| a x IH]; simpl.
  - rewrite Hc. exists []. reflexivity.
  - destruct (is_space a); [exact IH | exists (a :: x); reflexivity].
Qed.

Lemma rstrip_clean (l : list ascii) :
  clean_start l -> clean_start (rev (lstrip (rev l))).
Proof.
  destruct l as [| c l]; simpl; [trivial |]. intros Hc.
  destruct (lstrip_keeps_last (rev l) c Hc) as [y ->].
  rewrite rev_app_distr. simpl. exact Hc.
Qed.

Lemma strip_idempotent (l : list ascii) :
  let strip l := rev (lstrip (rev (lstrip l))) in
  strip (strip l) = strip l.
Proof.
  cbv beta zeta.
  rewrite (lstrip_of_clean (rev (lstrip (rev (lstrip l)))))
    by (apply rstrip_clean, lstrip_clean).
  rewrite rev_involutive.
  rewrite (lstrip_of_clean (lstrip (rev (lstrip l)))) by apply lstrip_clean.
  reflexivity.
Qed.

Lemma str_strip_idempotent (s : string) : str_strip (str_strip s) = str_strip s.
Proof.
  unfold str_strip. rewrite chars_text.
  f_equal. apply strip_idempotent.
Qed.

(** ** The legacy parser *)

Lemma parse_part_step (part : string) (step : plan_step) :
  In step (parse_part part) ->
  query step = str_strip part
  /\ query step <> EmptyString
  /\ str_startswith (query step) "---" = false
  /\ inject_params step = re_findall legacy_inject_pattern (query step).
Proof.
  unfold parse_part.
  destruct (String.eqb (str_strip part) EmptyString) eqn:He; [intros [] |].
  destruct (str_startswith (str_strip part) "---") eqn:Hs; [intros [] |].
  simpl. intros [<- | []]. simpl.
  apply String.eqb_neq in He. repeat split; assumption.
Qed.

(** X8. Every step the legacy parser produces has a body that is not empty,
    is stripped of surrounding white space, does not start with [---] and
    is one of the texts between markers; its [inject_params] are the
    matches of the legacy pattern in that stripped body. *)
Theorem legacy_steps_well_formed (sparql_text : string) (step : plan_step) :
  In step (_parse_cached_sequential_sparql sparql_text) ->
  query step <> EmptyString
  /\ str_strip (query step) = query step
  /\ str_startswith (query step) "---" = false
  /\ inject_params step = re_findall legacy_inject_pattern (query step)
  /\ exists part,
       In part (tl (re_split query_marker_pattern sparql_text))
       /\ query step = str_strip part.
Proof.
  unfold _parse_cached_sequential_sparql. intros Hin.
  apply in_flat_map in Hin as [part [Hpart Hstep]].
  destruct (parse_part_step part step Hstep) as [Hq [Hne [Hdash Hparams]]].
  split; [exact Hne |]. split; [rewrite Hq; apply str_strip_idempotent |].
  split; [exact Hdash |]. split; [exact Hparams |].
  exists part. split; assumption.
Qed.

Lemma legacy_steps_well_formed_witness :
  query (mkStep legacy_page_query []) <> EmptyString
  /\ str_strip legacy_page_query = legacy_page_query.
Proof.
  destruct (legacy_steps_well_formed legacy_text (mkStep legacy_page_query []))
    as [Hne [Hstrip _]].
  - vm_compute. right. left. reflexivity.
  - split; assumption.
Defined.

Lemma re_split_no_match (r : regex) (s : string) :
  re_search r s = None -> re_split r s = [s].
Proof.
  unfold re_search, re_split, scan_all. intros Hnone.
  cbn [scan]. rewrite Hnone. simpl. rewrite text_chars. reflexivity.
Qed.

(** X9. A text in which no [---query N ...---] marker is found gives the
    empty plan: nothing before the first marker, and nothing of a text
    without markers, becomes a step. *)
Theorem legacy_text_without_marker (sparql_text : string) :
  re_search query_marker_pattern sparql_text = None ->
  _parse_cached_sequential_sparql sparql_text = [].
Proof.
  intros Hnone. unfold _parse_cached_sequential_sparql.
  rewrite (re_split_no_match _ _ Hnone). reflexivity.
Qed.

Lemma legacy_text_without_marker_witness :
  _parse_cached_sequential_sparql "SELECT ?s ---split--- SELECT ?o" = [].
Proof.
  apply legacy_text_without_marker. vm_compute. reflexivity.
Defined.

(** ** The stream, single-query branch *)

Section SingleStream.

Context {VS : Type}.
Variable py : interpreter.
Variable env : collaborators VS.

Import StatusMessage.

Lemma stage1_state (user_query : string) (cached_data : option string)
  (w : VS) (c : control (bool * string * list plan_step)) (st1 : stream VS) :
  stage1 env user_query cached_data (started w) = (c, st1) ->
  cache_calls st1 = [] /\ store st1 = w /\ calls st1 = []
  /\ (frames st1 = [processing_query]
      \/ frames st1 = [processing_query; generating_sparql]).
Proof.
  intros H.
  destruct (stage1_run env user_query cached_data (started w))
    as [b [sq [plan [fs [Hrun Hfs]]]]].
  rewrite H in Hrun. injection Hrun as _ ->.
  repeat split. destruct Hfs as [-> | ->]; [left | right]; reflexivity.
Qed.

(** The stream of a single query, by the outcome of its call. *)
Lemma single_stream (request : NLQueryRequest) (w : VS)
  (cached_data : option string) (sparql_query : string)
  (sparql_queries : list plan_step) (st1 : stream VS) :
  get_cached_query env (cache_key request) = Ok cached_data ->
  stage1 env (effective_query request) cached_data (started w)
  = (Next (false, sparql_query, sparql_queries), st1) ->
  let user_query := effective_query request in
  let closing (results : response) :=
    [processing_results]
    ++ answer_frames env user_query sparql_query (Some results)
    ++ [data_done] in
  run_stream py env request w
  = if String.eqb sparql_query EmptyString then
      (Returned, mkStream (frames st1 ++ [no_data; data_done]) [] w [])
    else
      let '(r, w') := execute_query env w sparql_query in
      let fs := frames st1 ++ [executing_query] in
      match r with
      | Raise _ =>
          (Returned,
           mkStream (fs ++ [no_data; data_done]) [] w' [(sparql_query, r)])
      | Ok results =>
          if Nat.eqb (result_count results) 0 then
            (Next tt,
             mkStream ((fs ++ [no_results]) ++ closing results) [] w'
               [(sparql_query, r)])
          else
            match cache_query env user_query sparql_query with
            | Ok _ =>
                (Next tt,
                 mkStream (fs ++ closing results) [(user_query, sparql_query)]
                   w' [(sparql_query, r)])
            | Raise _ =>
                (Returned,
                 mkStream (fs ++ [no_data; data_done])
                   [(user_query, sparql_query)] w' [(sparql_query, r)])
            end
      end.
Proof.
  intros Hcache Hstage1 user_query closing. subst user_query closing. cbv beta.
  rewrite (run_stream_unfold py env request w cached_data false sparql_query
             sparql_queries st1 Hcache Hstage1).
  destruct (stage1_state _ _ _ _ _ Hstage1) as [Hcc [Hstore [Hcalls _]]].
  rewrite stage2_single_run, Hcc, Hstore, Hcalls. cbn [app].
  destruct (String.eqb sparql_query EmptyString); [reflexivity |].
  destruct (execute_query env w sparql_query) as [[results | e] w'];
    [| reflexivity].
  destruct (Nat.eqb (result_count results) 0).
  - rewrite stage3_run. reflexivity.
  - destruct (cache_query env (effective_query request) sparql_query);
      [rewrite stage3_run |]; reflexivity.
Qed.

End SingleStream.

(** X10. A cache entry that is not JSON and mentions [---split] or
    [---query], but in which no [---query N ...---] marker is found, is
    read as a plan without steps: the stream announces the execution and
    then takes the no-data path, with no call to the triplestore and
    nothing handed to the cache. *)
Theorem unreadable_legacy_entry_no_data (py : interpreter) {VS : Type}
  (env : collaborators VS) (request : NLQueryRequest) (w : VS)
  (cached_sparql : string) :
  get_cached_query env (cache_key request) = Ok (Some cached_sparql) ->
  json_loads env cached_sparql = None ->
  str_in "---split" cached_sparql || str_in "---query" cached_sparql = true ->
  re_search query_marker_pattern cached_sparql = None ->
  run_stream py env request w
  = (Returned,
     mkStream [StatusMessage.processing_query; StatusMessage.executing_query;
               StatusMessage.no_data; StatusMessage.data_done] [] w []).
Proof.
  intros Hcache Hjson Hold Hnone.
  assert (Hstage1 :
            stage1 env (effective_query request) (Some cached_sparql) (started w)
            = (Next (true, EmptyString, []), started w)).
  { unfold stage1, _parse_cached_sequential_sparql.
    rewrite Hjson, Hold, (re_split_no_match _ _ Hnone). reflexivity. }
  rewrite (sequential_stream py env request w (Some cached_sparql) EmptyString []
             (started w) (Ok empty_response) w [] Hcache Hstage1 eq_refl).
  reflexivity.
Qed.

Lemma unreadable_legacy_entry_no_data_witness :
  run_stream table_py (text_hit_env split_entry counting_store) epochs_request tt
  = (Returned,
     mkStream [StatusMessage.processing_query; StatusMessage.executing_query;
               StatusMessage.no_data; StatusMessage.data_done] [] tt []).
Proof.
  apply (unreadable_legacy_entry_no_data table_py
           (text_hit_env split_entry counting_store) epochs_request tt
           split_entry).
  - reflexivity.
  - reflexivity.
  - vm_compute. reflexivity.
  - vm_compute. reflexivity.
Defined.

(** X11. When the call of a single query fails, or when the store of its
    text in the cache fails after a call that returned rows, the stream
    takes the no-data path: after the execution status it yields the
    no-data frame and the closing frame and ends, without contextualising
    anything. *)
Theorem single_query_failure_no_data (py : interpreter) {VS : Type}
  (env : collaborators VS) (request : NLQueryRequest) (w w' : VS)
  (cached_data : option string) (sparql_query : string)
  (sparql_queries : list plan_step) (st1 : stream VS)
  (r : py_result response) :
  get_cached_query env (cache_key request) = Ok cached_data ->
  stage1 env (effective_query request) cached_data (started w)
  = (Next (false, sparql_query, sparql_queries), st1) ->
  sparql_query <> EmptyString ->
  execute_query env w sparql_query = (r, w') ->
  let no_data_frames :=
    frames st1
    ++ [StatusMessage.executing_query; StatusMessage.no_data;
        StatusMessage.data_done] in
  (forall e, r = Raise e ->
     run_stream py env request w
     = (Returned, mkStream no_data_frames [] w' [(sparql_query, r)]))
  /\ (forall results e,
        r = Ok results -> result_count results <> 0 ->
        cache_query env (effective_query request) sparql_query = Raise e ->
        run_stream py env request w
        = (Returned,
           mkStream no_data_frames [(effective_query request, sparql_query)] w'
             [(sparql_query, r)])).
Proof.
  intros Hcache Hstage1 Hne Hcall no_data_frames. subst no_data_frames.
  rewrite (single_stream py env request w cached_data sparql_query
             sparql_queries st1 Hcache Hstage1).
  apply String.eqb_neq in Hne. rewrite Hne, Hcall. cbv beta iota zeta. split.
  - intros e ->. rewrite <- app_assoc. reflexivity.
  - intros results e -> Hcount Hstore. apply Nat.eqb_neq in Hcount.
    rewrite Hcount, Hstore, <- app_assoc. reflexivity.
Qed.

Lemma single_query_failure_no_data_witness :
  run_stream table_py (text_hit_env select_response unreachable_store)
    epochs_request tt
  = (Returned,
     mkStream [StatusMessage.processing_query; StatusMessage.executing_query;
               StatusMessage.no_data; StatusMessage.data_done] [] tt
       [(select_response,
         Raise (mkExn "ConnectionError" "triplestore unreachable"))]).
Proof.
  destruct (single_query_failure_no_data table_py
              (text_hit_env select_response unreachable_store) epochs_request
              tt tt (Some select_response) select_response [] (started tt)
              (Raise (mkExn "ConnectionError" "triplestore unreachable")))
    as [H _].
  - reflexivity.
  - vm_compute. reflexivity.
  - discriminate.
  - reflexivity.
  - apply (H (mkExn "ConnectionError" "triplestore unreachable")). reflexivity.
Defined.

(** X12. A single query is handed to the cache exactly when its call
    returned a response that is not empty; what is stored under the
    effective query is the text of the SPARQL query itself. *)
Theorem single_query_cached_iff (py : interpreter) {VS : Type}
  (env : collaborators VS) (request : NLQueryRequest) (w w' : VS)
  (cached_data : option string) (sparql_query : string)
  (sparql_queries : list plan_step) (st1 : stream VS)
  (r : py_result response) :
  get_cached_query env (cache_key request) = Ok cached_data ->
  stage1 env (effective_query request) cached_data (started w)
  = (Next (false, sparql_query, sparql_queries), st1) ->
  sparql_query <> EmptyString ->
  execute_query env w sparql_query = (r, w') ->
  (cache_calls (snd (run_stream py env request w))
   = [(effective_query request, sparql_query)]
   <-> exists results, r = Ok results /\ result_count results <> 0)
  /\ (cache_calls (snd (run_stream py env request w)) = []
      \/ cache_calls (snd (run_stream py env request w))
         = [(effective_query request, sparql_query)]).
Proof.
  intros Hcache Hstage1 Hne Hcall.
  rewrite (single_stream py env request w cached_data sparql_query
             sparql_queries st1 Hcache Hstage1).
  apply String.eqb_neq in Hne. rewrite Hne, Hcall. cbv beta iota zeta.
  destruct r as [results | e].
  - destruct (Nat.eqb (result_count results) 0) eqn:Hc.
    + apply Nat.eqb_eq in Hc. cbn [snd cache_calls].
      split; [| left; reflexivity]. split; [discriminate |].
      intros [results' [Hr Hn]]. injection Hr as <-. contradiction.
    + apply Nat.eqb_neq in Hc.
      destruct (cache_query env (effective_query request) sparql_query);
        cbn [snd cache_calls]; (split; [| right; reflexivity]);
        (split; [intros _; eauto | reflexivity]).
  - cbn [snd cache_calls]. split; [| left; reflexivity].
    split; [discriminate |]. intros [results [Hr _]]. discriminate.
Qed.

Lemma single_query_cached_iff_witness :
  cache_calls (snd (run_stream table_py
                      (text_hit_env select_response counting_store)
                      epochs_request tt))
  = [("how many epochs?", select_response)].
Proof.
  destruct (single_query_cached_iff table_py
              (text_hit_env select_response counting_store) epochs_request
              tt tt (Some select_response) select_response [] (started tt)
              (Ok (one_row "s" "http://example.org/s")))
    as [[_ H] _].
  - reflexivity.
  - vm_compute. reflexivity.
  - discriminate.
  - reflexivity.
  - apply H. eexists. split; [reflexivity | vm_compute; discriminate].
Defined.

(** X13. A single query whose call returns an empty response still reaches
    the contextualisation: the stream yields the no-results status, the
    status of the contextualisation, the frames of the answer for that
    query and that response, and the closing frame; nothing is handed to
    the cache. *)
Theorem empty_result_still_contextualised (py : interpreter) {VS : Type}
  (env : collaborators VS) (request : NLQueryRequest) (w w' : VS)
  (cached_data : option string) (sparql_query : string)
  (sparql_queries : list plan_step) (st1 : stream VS) (results : response) :
  get_cached_query env (cache_key request) = Ok cached_data ->
  stage1 env (effective_query request) cached_data (started w)
  = (Next (false, sparql_query, sparql_queries), st1) ->
  sparql_query <> EmptyString ->
  execute_query env w sparql_query = (Ok results, w') ->
  result_count results = 0 ->
  run_stream py env request w
  = (Next tt,
     mkStream
       (frames st1
        ++ [StatusMessage.executing_query; StatusMessage.no_results;
            StatusMessage.processing_results]
        ++ answer_frames env (effective_query request) sparql_query
             (Some results)
        ++ [StatusMessage.data_done])
       [] w' [(sparql_query, Ok results)]).
Proof.
  intros Hcache Hstage1 Hne Hcall Hcount.
  rewrite (single_stream py env request w cached_data sparql_query
             sparql_queries st1 Hcache Hstage1).
  apply String.eqb_neq in Hne. rewrite Hne, Hcall. cbv beta iota zeta.
  rewrite Hcount. cbn [Nat.eqb]. rewrite <- !app_assoc. reflexivity.
Qed.

Lemma empty_result_still_contextualised_witness :
  run_stream table_py (text_hit_env select_response empty_store)
    epochs_request tt
  = (Next tt,
     mkStream
       [StatusMessage.processing_query; StatusMessage.executing_query;
        StatusMessage.no_results; StatusMessage.processing_results;
        ("answer" ++ StatusMessage.nl)%string; StatusMessage.data_done]
       [] tt [(select_response, Ok no_rows)]).
Proof.
  apply (empty_result_still_contextualised table_py
           (text_hit_env select_response empty_store) epochs_request tt tt
           (Some select_response) select_response [] (started tt) no_rows).
  - reflexivity.
  - vm_compute. reflexivity.
  - discriminate.
  - reflexivity.
  - reflexivity.
Defined.

(** ** The stream as a whole *)

(** X14. On a cache miss, a language model that fails, or a parser that
    fails on an answer that contains [SELECT], does not produce an error
    frame: the stream yields the two status frames, the no-data frame and
    the closing frame, and ends without a call to the triplestore. *)
Theorem language_model_failure_no_data (py : interpreter) {VS : Type}
  (env : collaborators VS) (request : NLQueryRequest) (w : VS) :
  get_cached_query env (cache_key request) = Ok None ->
  (exists e, generate_complete env (effective_query request) = Raise e)
  \/ (exists raw e,
        generate_complete env (effective_query request) = Ok raw
        /\ str_in "SELECT" raw = true
        /\ detect_and_parse_sparql env raw = Raise e) ->
  run_stream py env request w
  = (Returned,
     mkStream [StatusMessage.processing_query; StatusMessage.generating_sparql;
               StatusMessage.no_data; StatusMessage.data_done] [] w []).
Proof.
  intros Hcache Hfail.
  assert (Hstage1 :
            stage1 env (effective_query request) None (started w)
            = (Next (false, EmptyString, []),
               mkStream [StatusMessage.processing_query;
                         StatusMessage.generating_sparql] [] w [])).
  { unfold stage1, gbind, yield, try_gen, await, ret. cbn.
    destruct Hfail as [[e ->] | [raw [e [-> [-> ->]]]]]; reflexivity. }
  rewrite (single_stream py env request w None EmptyString [] _ Hcache Hstage1).
  reflexivity.
Qed.

Lemma language_model_failure_no_data_witness :
  run_stream table_py model_down_env epochs_request tt
  = (Returned,
     mkStream [StatusMessage.processing_query; StatusMessage.generating_sparql;
               StatusMessage.no_data; StatusMessage.data_done] [] tt []).
Proof.
  apply (language_model_failure_no_data table_py model_down_env epochs_request tt).
  - reflexivity.
  - left. eexists. reflexivity.
Defined.





(** X16. On a cache hit the language model and its parser play no part:
    the stream is the same whatever they would answer. *)
Theorem cache_hit_ignores_language_model (py : interpreter) {VS : Type}
  (env : collaborators VS) (request : NLQueryRequest) (w : VS)
  (cached_sparql : string) (generate : string -> py_result string)
  (detect : string -> py_result parsed) :
  get_cached_query env (cache_key request) = Ok (Some cached_sparql) ->
  run_stream py (with_language_model env generate detect) request w
  = run_stream py env request w.
Proof.
  intros Hcache.
  destruct (stage1_run env (effective_query request) (Some cached_sparql)
              (started w)) as [b [sq [plan [fs1 [Hstage1 _]]]]].
  rewrite (run_stream_unfold py env request w (Some cached_sparql) b sq plan _
             Hcache Hstage1).
  rewrite (run_stream_unfold py (with_language_model env generate detect)
             request w (Some cached_sparql) b sq plan _ Hcache Hstage1).
  reflexivity.
Qed.

Lemma cache_hit_ignores_language_model_witness :
  run_stream table_py
    (with_language_model (cache_hit_env counting_store)
       (fun _ => Ok ask_response) (fun _ => Ok (Single ask_response)))
    epochs_request tt
  = run_stream table_py (cache_hit_env counting_store) epochs_request tt.
Proof.
  apply (cache_hit_ignores_language_model table_py
           (cache_hit_env counting_store) epochs_request tt plan_text).
  reflexivity.
Defined.

(** X17. A plan read from a legacy delimited cache entry is written back in
    the canonical form: when its execution returns a response that is not
    empty, what is handed to the cache is [json.dumps] of the parsed
    steps. *)
Theorem legacy_plan_written_back_canonical (py : interpreter) {VS : Type}
  (env : collaborators VS) (request : NLQueryRequest) (w w' : VS)
  (cached_sparql : string) (results : response) (log : list call) :
  get_cached_query env (cache_key request) = Ok (Some cached_sparql) ->
  json_loads env cached_sparql = None ->
  str_in "---split" cached_sparql || str_in "---query" cached_sparql = true ->
  _execute_sequential_queries py (execute_query env)
    (_parse_cached_sequential_sparql cached_sparql) w
  = (Ok results, w', log) ->
  result_count results <> 0 ->
  cache_calls (snd (run_stream py env request w))
  = [(effective_query request,
      json_dumps env (_parse_cached_sequential_sparql cached_sparql))].
Proof.
  intros Hcache Hjson Hold Hexec Hcount.
  assert (Hstage1 :
            stage1 env (effective_query request) (Some cached_sparql) (started w)
            = (Next (true, EmptyString,
                     _parse_cached_sequential_sparql cached_sparql),
               started w)).
  { unfold stage1. rewrite Hjson, Hold. reflexivity. }
  rewrite (sequential_stream py env request w (Some cached_sparql) EmptyString
             _ (started w) (Ok results) w' log Hcache Hstage1 Hexec).
  cbv beta zeta.
  assert (Ht : truthy results = true).
  { destruct (truthy results) eqn:Ht; [reflexivity |].
    apply not_truthy_no_results in Ht. contradiction. }
  apply Nat.eqb_neq in Hcount. rewrite Ht, Hcount.
  destruct (cache_query env (effective_query request) _); reflexivity.
Qed.

Lemma legacy_plan_written_back_canonical_witness :
  cache_calls (snd (run_stream table_py
                      (text_hit_env legacy_count_text counting_store)
                      epochs_request tt))
  = [("how many epochs?", dumps_plan [mkStep count_query []])].
Proof.
  apply (legacy_plan_written_back_canonical table_py
           (text_hit_env legacy_count_text counting_store) epochs_request tt tt
           legacy_count_text (one_row "total" "10882")
           [(count_query, Ok (one_row "total" "10882"))]).
  - reflexivity.
  - reflexivity.
  - vm_compute. reflexivity.
  - vm_compute. reflexivity.
  - vm_compute. discriminate.
Defined.

(** ** The stream wrapper *)

Section WrapperFacts.

Import Heartbeat.

Variable time : Type.
Variable past_window : time -> time -> bool.

Lemma relay_upstream (events : list (awaited time)) :
  forall last cursor,
    upstream_of (relay time past_window events last cursor) = chunks_of events.
Proof.
  induction events as [| [chunk now | now] events IH]; intros last cursor.
  - reflexivity.
  - simpl. rewrite IH. reflexivity.
  - simpl. destruct (past_window now last); simpl; apply IH.
Qed.


Lemma upstream_of_app (a b : list item) :
  upstream_of (a ++ b) = upstream_of a ++ upstream_of b.
Proof. unfold upstream_of. apply flat_map_app. Qed.


End WrapperFacts.

(** X18. The wrapper passes on every chunk it receives, once, unchanged
    and in the order received, however the time-outs fall and however the
    loop is left: the upstream chunks among the items it yields are the
    chunks of the trace. *)
Theorem wrapper_preserves_chunks (time : Type)
  (past_window : time -> time -> bool) (start : time)
  (events : list (Heartbeat.awaited time)) (stop : Heartbeat.ending) :
  Heartbeat.upstream_of
    (fst (Heartbeat._stream_with_timeout_messages time past_window start
            events stop))
  = Heartbeat.chunks_of events.
Proof.
  unfold Heartbeat._stream_with_timeout_messages.
  destruct stop; cbn [fst]; rewrite ?upstream_of_app, relay_upstream;
    [reflexivity | reflexivity | apply app_nil_r].
Qed.



(** X20. The cycle has period eight and every message of it is a status
    frame: message [i + 8] is message [i], and each message starts with
    [status: ]. *)
Theorem thinking_messages_cycle (i : nat) :
  Heartbeat.next_message (i + 8) = Heartbeat.next_message i
  /\ str_startswith (Heartbeat.next_message i) "status: " = true.
Proof.
  unfold Heartbeat.next_message.
  change (List.length Heartbeat.THINKING_MESSAGES) with 8.
  split.
  - replace (i + 8) with (i + 1 * 8) by lia.
    rewrite Nat.Div0.mod_add. reflexivity.
  - assert (H : i mod 8 < 8) by (apply Nat.mod_upper_bound; discriminate).
    destruct (i mod 8) as [| [| [| [| [| [| [| [| n]]]]]]]];
      try (vm_compute; reflexivity).
    lia.
Qed.

(** X21. A trace without time-outs that ends with the upstream exhausted
    is passed on as it is: the wrapper yields the chunks and nothing
    else. *)
Theorem wrapper_transparent_without_stall (time : Type)
  (past_window : time -> time -> bool) (start : time)
  (events : list (Heartbeat.awaited time)) :
  timeouts_of events = 0 ->
  Heartbeat._stream_with_timeout_messages time past_window start events
    Heartbeat.Exhausted
  = (map Heartbeat.Upstream (Heartbeat.chunks_of events), Heartbeat.Finished).
Proof.
  intros Hnone. unfold Heartbeat._stream_with_timeout_messages. f_equal.
  generalize 0. revert start.
  induction events as [| [chunk now | now] events IH]; intros start cursor.
  - reflexivity.
  - simpl. rewrite (IH Hnone). reflexivity.
  - discriminate Hnone.
Qed.

Lemma wrapper_transparent_without_stall_witness :
  Heartbeat._stream_with_timeout_messages Z window_300 0%Z
    [Heartbeat.Chunk "The" 1%Z; Heartbeat.Chunk " answer" 2%Z]
    Heartbeat.Exhausted
  = ([Heartbeat.Upstream "The"; Heartbeat.Upstream " answer"],
     Heartbeat.Finished).
Proof.
  apply (wrapper_transparent_without_stall Z window_300 0%Z
           [Heartbeat.Chunk "The" 1%Z; Heartbeat.Chunk " answer" 2%Z]).
  reflexivity.
Defined.

(** ** The top-queries endpoint *)

Lemma rank_from_nth (popular_queries : list TopQueries.popular) :
  forall idx i p,
    nth_error popular_queries i = Some p ->
    nth_error (TopQueries.rank_from idx popular_queries) i
    = Some (TopQueries.mkRanked (idx + Z.of_nat i + 1)
              (TopQueries.original_query p) (TopQueries.normalized_query p)
              (TopQueries.count p)).
Proof.
  induction popular_queries as [| q rest IH]; intros idx i p.
  - destruct i; discriminate.
  - destruct i as [| i]; simpl.
    + intros H. injection H as <-. do 2 f_equal. lia.
    + intros H. rewrite (IH (idx + 1)%Z i p H). do 2 f_equal. lia.
Qed.

Lemma rank_from_length (popular_queries : list TopQueries.popular) :
  forall idx,
    List.length (TopQueries.rank_from idx popular_queries)
    = List.length popular_queries.
Proof.
  induction popular_queries as [| q rest IH]; intros idx; simpl;
    [reflexivity | rewrite IH; reflexivity].
Qed.

(** X22. [get_top_queries] answers with as many entries as the cache
    reports, in the same order, the entry at index [i] carrying rank
    [i + 1] and the query, normalized query and count of the reported
    entry; when the cache raises, the answer is an HTTP 500 whose detail
    is the text of the exception. *)
Theorem top_queries_ranked_in_order
  (get_popular_queries : Z -> py_result (list TopQueries.popular)) (limit : Z) :
  (forall popular_queries,
     get_popular_queries limit = Ok popular_queries ->
     exists top,
       TopQueries.get_top_queries get_popular_queries limit = TopQueries.Body top
       /\ List.length top = List.length popular_queries
       /\ forall i p,
            nth_error popular_queries i = Some p ->
            nth_error top i
            = Some (TopQueries.mkRanked (Z.of_nat i + 1)
                      (TopQueries.original_query p)
                      (TopQueries.normalized_query p) (TopQueries.count p)))
  /\ (forall e,
        get_popular_queries limit = Raise e ->
        TopQueries.get_top_queries get_popular_queries limit
        = TopQueries.HTTPException 500 (exn_text e)).
Proof.
  unfold TopQueries.get_top_queries. split.
  - intros popular_queries ->. eexists. split; [reflexivity |].
    split; [apply rank_from_length |].
    intros i p Hp. rewrite (rank_from_nth popular_queries 0 i p Hp).
    reflexivity.
  - intros e ->. reflexivity.
Qed.

(** ** The cache key *)

Lemma lower_char_idempotent (c : ascii) : lower_char (lower_char c) = lower_char c.
Proof. destruct c as [[] [] [] [] [] [] [] []]; vm_compute; reflexivity. Qed.

Lemma lower_char_space (c : ascii) : is_space (lower_char c) = is_space c.
Proof. destruct c as [[] [] [] [] [] [] [] []]; vm_compute; reflexivity. Qed.

Lemma lstrip_lower (l : list ascii) :
  lstrip (map lower_char l) = map lower_char (lstrip l).
Proof.
  induction l as [| c l IH]; simpl; [reflexivity |].
  rewrite lower_char_space. destruct (is_space c); [exact IH | reflexivity].
Qed.

Lemma strip_lower (l : list ascii) :
  rev (lstrip (rev (lstrip (map lower_char l))))
  = map lower_char (rev (lstrip (rev (lstrip l)))).
Proof.
  rewrite lstrip_lower, <- map_rev, lstrip_lower, <- map_rev. reflexivity.
Qed.

Lemma str_lower_strip (s : string) :
  str_lower (str_strip s) = str_strip (str_lower s).
Proof.
  unfold str_lower, str_strip. rewrite !chars_text, strip_lower. reflexivity.
Qed.

Lemma str_lower_idempotent (s : string) : str_lower (str_lower s) = str_lower s.
Proof.
  unfold str_lower. rewrite chars_text, map_map.
  f_equal. apply map_ext. apply lower_char_idempotent.
Qed.

(** X23. The cache key of a request is in normal form: lowering it or
    stripping it changes nothing, so a request whose query is the key of
    another request has that same key. *)
Theorem cache_key_normal_form (request : NLQueryRequest) :
  str_lower (cache_key request) = cache_key request
  /\ str_strip (cache_key request) = cache_key request
  /\ cache_key (mkRequest (cache_key request) None) = cache_key request.
Proof.
  assert (Hlow : str_lower (cache_key request) = cache_key request).
  { unfold cache_key. rewrite str_lower_strip, str_lower_idempotent.
    reflexivity. }
  assert (Hstrip : str_strip (cache_key request) = cache_key request)
    by (unfold cache_key; apply str_strip_idempotent).
  split; [exact Hlow |]. split; [exact Hstrip |].
  unfold cache_key at 1. cbn [effective_query request_context request_query].
  rewrite Hlow. exact Hstrip.
Qed.

(** ** Unwrapping a marker *)

Lemma star_cls_loop (p : ascii -> bool) (k : cont) :
  forall s fuel prev cap,
    List.length s <= fuel ->
    (fix loop (fuel : nat) (prev : option ascii) (s : list ascii)
       (cap : capture) {struct fuel} : option answer :=
       match fuel with
       | O => k prev s cap
       | S fuel' =>
           match
             rx (Cls p)
               (fun prev' s' cap' =>
                  if Nat.ltb (List.length s') (List.length s)
                  then loop fuel' prev' s' cap' else None)
               prev s cap
           with
           | Some a => Some a
           | None => k prev s cap
           end
       end) fuel prev s cap
    = star_greedy p k prev s cap.
Proof.
  induction s as [| x s IH]; intros fuel prev cap Hfuel.
  - destruct fuel; reflexivity.
  - destruct fuel as [| fuel]; [simpl in Hfuel; lia |].
    cbn [rx star_greedy]. destruct (p x); [| reflexivity].
    assert (Hlt : Nat.ltb (List.length s) (List.length (x :: s)) = true)
      by (apply Nat.ltb_lt; simpl; lia).
    rewrite Hlt. rewrite IH by (simpl in Hfuel; lia). reflexivity.
Qed.

Lemma rx_star_cls (p : ascii -> bool) (k : cont) (prev : option ascii)
  (s : list ascii) (cap : capture) :
  rx (Star (Cls p)) k prev s cap = star_greedy p k prev s cap.
Proof. apply (star_cls_loop p k s (List.length s) prev cap). apply Nat.le_refl. Qed.

Lemma star_greedy_gives_back (p : ascii -> bool) (k : cont) (c : ascii)
  (cap : capture) (a : answer) :
  p c = true ->
  (forall prev, k prev [] cap = None) ->
  forall X prev,
    forallb p X = true ->
    k (prev_after prev X) [c] cap = Some a ->
    star_greedy p k prev (X ++ [c]) cap = Some a.
Proof.
  intros Hc Hend. induction X as [| x X IH]; intros prev HX Hk.
  - simpl. rewrite Hc, Hend. exact Hk.
  - simpl in HX. apply andb_true_iff in HX as [Hx HX].
    simpl. rewrite Hx. rewrite (IH (Some x) HX Hk). reflexivity.
Qed.

Lemma rx_lit_mismatch (p : list ascii) :
  forall (k : cont) prev s cap,
    strip_prefix p s = None -> rx (lit_chars p) k prev s cap = None.
Proof.
  induction p as [| c p IH]; intros k prev s cap Hnone.
  - destruct s; discriminate.
  - destruct s as [| x s].
    + destruct p; reflexivity.
    + simpl in Hnone. rewrite Ascii.eqb_sym in Hnone.
      destruct p as [| c2 p].
      * simpl. destruct (Ascii.eqb x c); [discriminate | reflexivity].
      * cbn [lit_chars rx]. destruct (Ascii.eqb x c); [| reflexivity].
        apply (IH k (Some x) s cap Hnone).
Qed.

Lemma search_from_bol_later (r : regex) :
  forall s c skipped, search_from (Cat Bol r) (Some c) skipped s = None.
Proof.
  induction s as [| x s IH]; intros c skipped; [reflexivity |].
  cbn [search_from match_here rx]. apply IH.
Qed.

Lemma strip_prefix_snoc (p : list ascii) :
  forall y c r,
    strip_prefix p (y ++ [c]) = Some r ->
    (exists r', strip_prefix p y = Some r') \/ p = y ++ [c].
Proof.
  induction p as [| a p IH]; intros y c r H.
  - left. exists y. destruct y; reflexivity.
  - destruct y as [| b y]; simpl in H.
    + destruct (Ascii.eqb_spec a c) as [-> | _]; [| discriminate].
      destruct p; [right; reflexivity | discriminate].
    + simpl. destruct (Ascii.eqb_spec a b) as [-> | _]; [| discriminate].
      destruct (IH y c r H) as [Hleft | ->]; [left; exact Hleft | right; reflexivity].
Qed.

Lemma contains_snoc (p : list ascii) (c : ascii) :
  (forall y, p <> y ++ [c]) ->
  forall X, contains p (X ++ [c]) = true -> contains p X = true.
Proof.
  intros Hp. induction X as [| x X IH].
  - simpl. destruct (strip_prefix p [c]) as [r |] eqn:E; [| trivial].
    intros _. destruct (strip_prefix_snoc p [] c r E) as [[r' ->] | Heq];
      [reflexivity | destruct (Hp [] Heq)].
  - cbn [app contains].
    destruct (strip_prefix p (x :: X ++ [c])) as [r |] eqn:E.
    + intros _.
      destruct (strip_prefix_snoc p (x :: X) c r E) as [[r' ->] | Heq];
        [reflexivity | destruct (Hp (x :: X) Heq)].
    + intros H. rewrite (IH H). destruct (strip_prefix p (x :: X)); reflexivity.
Qed.

Lemma contains_head (p s : list ascii) :
  contains p s = false -> strip_prefix p s = None.
Proof.
  destruct s; simpl; destruct (strip_prefix p _); try discriminate; reflexivity.
Qed.

Lemma chars_app (s1 s2 : string) : chars (s1 ++ s2) = chars s1 ++ chars s2.
Proof.
  induction s1 as [| c s1 IH]; simpl; [reflexivity |].
  unfold chars in *. simpl. rewrite IH. reflexivity.
Qed.

Lemma evaluate_not_ending_here (y : list ascii) :
  chars "evaluate(" <> y ++ [")"%char].
Proof.
  intros H. apply (f_equal (fun l => last l " "%char)) in H.
  rewrite last_last in H. vm_compute in H. discriminate.
Qed.

Lemma firstn_all_but_last (l : list ascii) (d : ascii) :
  firstn (List.length (l ++ [d]) - 1) (l ++ [d]) = l.
Proof.
  rewrite length_app. simpl.
  replace (List.length l + 1 - 1) with (List.length l + 0) by lia.
  rewrite firstn_app_2. simpl. apply app_nil_r.
Qed.

Lemma rx_group_plus_all (p : ascii -> bool) (k : cont) (prev : option ascii)
  (X : list ascii) (d : ascii) (cap0 : capture) (a : answer) :
  X <> [] -> forallb p X = true -> p d = true ->
  (forall pr cp, k pr [] cp = None) ->
  k (prev_after prev X) [d] (Some X) = Some a ->
  rx (Grp (plus (Cls p))) k prev (X ++ [d]) cap0 = Some a.
Proof.
  intros Hne HX Hd Hend Hk. destruct X as [| c X]; [contradiction |].
  simpl in HX. apply andb_true_iff in HX as [Hc HX].
  unfold plus. cbn [rx app]. rewrite Hc.
  change (rx (Star (Cls p))
            (fun prev' s' _ =>
               k prev' s'
                 (Some (firstn (List.length (c :: X ++ [d]) - List.length s')
                          (c :: X ++ [d]))))
            (Some c) (X ++ [d]) cap0 = Some a).
  rewrite rx_star_cls.
  apply star_greedy_gives_back; [exact Hd | intros pr; apply Hend | exact HX |].
  change (c :: X ++ [d]) with ((c :: X) ++ [d]).
  change (List.length [d]) with 1.
  rewrite firstn_all_but_last. exact Hk.
Qed.

Lemma wrapper_tail_matches (X : list ascii) (prev : option ascii) :
  X <> [] -> forallb any_but_newline X = true ->
  rx wrapper_tail report prev ("("%char :: X ++ [")"%char]) None
  = Some ([], Some X).
Proof.
  intros Hne HX. unfold wrapper_tail. cbn [seq].
  change (rx (Grp (plus (Cls any_but_newline)))
            (rx (Cat (Chr ")") Eol) report) (Some "("%char)
            (X ++ [")"%char]) None = Some ([], Some X)).
  apply rx_group_plus_all; try assumption; reflexivity.
Qed.

Lemma inject_wrapper_matches (X : list ascii) :
  X <> [] -> forallb any_but_newline X = true ->
  match_here inject_wrapper_pattern None (chars "INJECT(" ++ X ++ [")"%char])
  = Some ([], Some X)
  /\ match_here inject_wrapper_pattern None
       (chars "INJECT_FROM_PREVIOUS(" ++ X ++ [")"%char])
     = Some ([], Some X).
Proof.
  intros Hne HX. unfold match_here.
  change inject_wrapper_pattern
    with (Cat Bol (Cat (lit "INJECT")
                     (Cat (opt (lit "_FROM_PREVIOUS")) wrapper_tail))).
  change (fun (_ : option ascii) (rest : list ascii) (cap : capture) =>
            Some (rest, cap)) with report.
  pose proof (wrapper_tail_matches X) as Htail.
  remember wrapper_tail as T eqn:HT.
  split; cbn -[report]; rewrite Htail by assumption; reflexivity.
Qed.

Lemma scan_full_match (r : regex) (L X : list ascii) (fuel : nat) :
  L <> [] ->
  match_here (Cat Bol r) None L = Some ([], Some X) ->
  scan (Cat Bol r) (S fuel) None [] L = ([mkFound [] L [] (Some X)], []).
Proof.
  intros Hne Hm. destruct L as [| c L]; [contradiction |].
  cbn [scan search_from]. rewrite Hm.
  change (List.length (c :: L) - List.length (@nil ascii))
    with (S (List.length L)).
  cbn [firstn rev matched after]. rewrite firstn_all.
  destruct fuel as [| fuel]; [reflexivity |].
  cbn [scan search_from match_here rx]. reflexivity.
Qed.

Lemma sub_of_full_match (r : regex) (s : string) (X : list ascii) :
  s <> EmptyString ->
  match_here (Cat Bol r) None (chars s) = Some ([], Some X) ->
  re_sub_group (Cat Bol r) s = text X.
Proof.
  intros Hne Hm. unfold re_sub_group, scan_all.
  rewrite (scan_full_match r (chars s) X (String.length s)); [| | exact Hm].
  - simpl. unfold group_1. simpl. rewrite chars_text, !app_nil_r. reflexivity.
  - destruct s; [contradiction | discriminate].
Qed.

Lemma sub_without_match (r : regex) (s : string) :
  match_here (Cat Bol r) None (chars s) = None ->
  re_sub_group (Cat Bol r) s = s.
Proof.
  intros Hm. unfold re_sub_group, scan_all. cbn [scan].
  assert (Hnone : search_from (Cat Bol r) None [] (chars s) = None).
  { destruct (chars s) as [| c L]; cbn [search_from]; rewrite Hm;
      [reflexivity | apply search_from_bol_later]. }
  rewrite Hnone. simpl. apply text_chars.
Qed.

Lemma evaluate_wrapper_mismatch (s : string) :
  strip_prefix (chars "evaluate(") (chars s) = None ->
  re_sub_group evaluate_wrapper_pattern s = s.
Proof.
  intros Hnone.
  change evaluate_wrapper_pattern
    with (Cat Bol (Cat (lit "evaluate(")
                     (seq [Grp (plus (Cls any_but_newline)); Chr ")"; Eol]))).
  apply sub_without_match. unfold match_here. cbn [rx].
  apply rx_lit_mismatch. exact Hnone.
Qed.

Lemma strip_prefix_longer (p : list ascii) :
  forall a b r, strip_prefix p a = Some r -> strip_prefix p (a ++ b) = Some (r ++ b).
Proof.
  induction p as [| c p IH]; intros a b r H.
  - destruct a; injection H as <-; reflexivity.
  - destruct a as [| x a]; [discriminate |]. simpl in *.
    destruct (Ascii.eqb c x); [apply IH; exact H | discriminate].
Qed.

(** X24. Unwrapping removes one [INJECT(...)] or
    [INJECT_FROM_PREVIOUS(...)] layer and nothing else: for a non-empty
    expression without a line break and without the text [evaluate(],
    the wrapped expression unwraps to the expression itself, whatever
    parentheses it holds. *)
Theorem unwrap_removes_inject_layer (x : string) :
  x <> EmptyString ->
  forallb any_but_newline (chars x) = true ->
  str_in "evaluate(" x = false ->
  unwrap ("INJECT(" ++ x ++ ")") = x
  /\ unwrap ("INJECT_FROM_PREVIOUS(" ++ x ++ ")") = x.
Proof.
  intros Hne Hline Heval.
  assert (Hx : contains (chars "evaluate(") (chars x ++ [")"%char]) = false).
  { destruct (contains (chars "evaluate(") (chars x ++ [")"%char])) eqn:E;
      [| reflexivity].
    apply (contains_snoc _ _ evaluate_not_ending_here) in E.
    unfold str_in in Heval. congruence. }
  assert (Hstart : strip_prefix (chars "evaluate(") (chars x) = None).
  { destruct (strip_prefix (chars "evaluate(") (chars x)) as [r |] eqn:E;
      [| reflexivity].
    apply (strip_prefix_longer _ _ [")"%char]) in E.
    apply contains_head in Hx. congruence. }
  assert (HX : chars x <> []) by (destruct x; [contradiction | discriminate]).
  destruct (inject_wrapper_matches (chars x) HX Hline) as [Hshort Hlong].
  assert (Hchars : forall prefix,
            chars (prefix ++ x ++ ")") = chars prefix ++ chars x ++ [")"%char])
    by (intros prefix; rewrite !chars_app; reflexivity).
  split; unfold unwrap.
  - assert (Hin : str_in "evaluate(" ("INJECT(" ++ x ++ ")") = false)
      by (unfold str_in; rewrite Hchars; exact Hx).
    rewrite Hin.
    change inject_wrapper_pattern
      with (Cat Bol (Cat (lit "INJECT")
                       (Cat (opt (lit "_FROM_PREVIOUS")) wrapper_tail))) in *.
    rewrite (sub_of_full_match _ ("INJECT(" ++ x ++ ")") (chars x));
      [| discriminate | rewrite Hchars; exact Hshort].
    rewrite text_chars. apply evaluate_wrapper_mismatch. exact Hstart.
  - assert (Hin : str_in "evaluate(" ("INJECT_FROM_PREVIOUS(" ++ x ++ ")") = false)
      by (unfold str_in; rewrite Hchars; exact Hx).
    rewrite Hin.
    change inject_wrapper_pattern
      with (Cat Bol (Cat (lit "INJECT")
                       (Cat (opt (lit "_FROM_PREVIOUS")) wrapper_tail))) in *.
    rewrite (sub_of_full_match _ ("INJECT_FROM_PREVIOUS(" ++ x ++ ")") (chars x));
      [| discriminate | rewrite Hchars; exact Hlong].
    rewrite text_chars. apply evaluate_wrapper_mismatch. exact Hstart.
Qed.

Lemma unwrap_removes_inject_layer_witness :
  unwrap "INJECT(max(total, 10)/2)" = "max(total, 10)/2"
  /\ unwrap "INJECT_FROM_PREVIOUS(max(total, 10)/2)" = "max(total, 10)/2".
Proof.
  apply (unwrap_removes_inject_layer "max(total, 10)/2").
  - discriminate.
  - vm_compute. reflexivity.
  - vm_compute. reflexivity.
Defined.

Lemma rx_lit_match (p : list ascii) :
  p <> [] ->
  forall (k : cont) prev s cap rest,
    strip_prefix p s = Some rest ->
    rx (lit_chars p) k prev s cap = k (prev_after prev p) rest cap.
Proof.
  induction p as [| c p IH]; intros Hne k prev s cap rest H; [contradiction |].
  destruct s as [| x s]; [discriminate |]. simpl in H.
  destruct (Ascii.eqb_spec c x) as [<- | _]; [| discriminate].
  destruct p as [| c2 p].
  - simpl in H. injection H as <-. simpl. rewrite Ascii.eqb_refl. reflexivity.
  - cbn [lit_chars rx]. rewrite Ascii.eqb_refl.
    apply (IH ltac:(discriminate) k (Some c) s cap rest H).
Qed.

Lemma strip_prefix_suffix (p : list ascii) :
  forall s rest, strip_prefix p s = Some rest -> exists front, s = front ++ rest.
Proof.
  induction p as [| c p IH]; intros s rest H.
  - exists []. destruct s; injection H as <-; reflexivity.
  - destruct s as [| x s]; [discriminate |]. simpl in H.
    destruct (Ascii.eqb c x); [| discriminate].
    destruct (IH s rest H) as [front ->]. exists (x :: front). reflexivity.
Qed.

Lemma no_rparen_suffix (p s rest : list ascii) :
  strip_prefix p s = Some rest ->
  forallb not_rparen s = true -> forallb not_rparen rest = true.
Proof.
  intros H Hs. destruct (strip_prefix_suffix p s rest H) as [front ->].
  rewrite forallb_app in Hs. apply andb_true_iff in Hs. tauto.
Qed.

Lemma star_greedy_stops (p : ascii -> bool) (k : cont) (d : ascii)
  (rest : list ascii) (cap : capture) (a : answer) :
  p d = false ->
  forall Y prev,
    forallb p Y = true ->
    k (prev_after prev Y) (d :: rest) cap = Some a ->
    star_greedy p k prev (Y ++ d :: rest) cap = Some a.
Proof.
  intros Hd. induction Y as [| y Y IH]; intros prev HY Hk.
  - simpl. rewrite Hd. exact Hk.
  - simpl in HY. apply andb_true_iff in HY as [Hy HY].
    simpl. rewrite Hy, (IH (Some y) HY Hk). reflexivity.
Qed.

(** A continuation that needs a closing parenthesis next. *)
Lemma star_greedy_fails (p : ascii -> bool) (k : cont) :
  (forall pr cp, k pr [] cp = None) ->
  (forall pr c s cp, not_rparen c = true -> k pr (c :: s) cp = None) ->
  forall X prev cap,
    forallb not_rparen X = true -> star_greedy p k prev X cap = None.
Proof.
  intros Hnil Hcons. induction X as [| x X IH]; intros prev cap HX.
  - apply Hnil.
  - simpl in HX. apply andb_true_iff in HX as [Hx HX]. simpl.
    rewrite (IH (Some x) cap HX), (Hcons prev x X cap Hx).
    destruct (p x); reflexivity.
Qed.

Lemma firstn_front (A B : list ascii) :
  firstn (List.length (A ++ B) - List.length B) (A ++ B) = A.
Proof.
  rewrite length_app.
  replace (List.length A + List.length B - List.length B)
    with (List.length A + 0) by lia.
  rewrite firstn_app_2. simpl. apply app_nil_r.
Qed.

Lemma rx_group_plus_stops (p : ascii -> bool) (k : cont) (prev : option ascii)
  (Y : list ascii) (d : ascii) (rest : list ascii) (cap0 : capture)
  (a : answer) :
  Y <> [] -> forallb p Y = true -> p d = false ->
  k (prev_after prev Y) (d :: rest) (Some Y) = Some a ->
  rx (Grp (plus (Cls p))) k prev (Y ++ d :: rest) cap0 = Some a.
Proof.
  intros Hne HY Hd Hk. destruct Y as [| c Y]; [contradiction |].
  simpl in HY. apply andb_true_iff in HY as [Hc HY].
  unfold plus. cbn [rx app]. rewrite Hc.
  change (rx (Star (Cls p))
            (fun prev' s' _ =>
               k prev' s'
                 (Some (firstn (List.length (c :: Y ++ d :: rest)
                                - List.length s')
                          (c :: Y ++ d :: rest))))
            (Some c) (Y ++ d :: rest) cap0 = Some a).
  rewrite rx_star_cls.
  apply star_greedy_stops; [exact Hd | exact HY |].
  change (c :: Y ++ d :: rest) with ((c :: Y) ++ d :: rest).
  rewrite firstn_front. exact Hk.
Qed.

(** Without a closing parenthesis in the text, [(.+)\)] finds nothing. *)
Lemma group_then_rparen_fails (k : cont) (prev : option ascii)
  (Y : list ascii) (cap : capture) :
  forallb not_rparen Y = true ->
  rx (Grp (plus (Cls any_but_newline))) (rx (Cat (Chr ")") Eol) k) prev Y cap
  = None.
Proof.
  intros HY. destruct Y as [| c Y]; [reflexivity |].
  simpl in HY. apply andb_true_iff in HY as [Hc HY].
  unfold plus. cbn [rx].
  destruct (any_but_newline c); [| reflexivity].
  change (rx (Star (Cls any_but_newline))
            (fun prev' s' _ =>
               rx (Cat (Chr ")") Eol) k prev' s'
                 (Some (firstn (List.length (c :: Y) - List.length s') (c :: Y))))
            (Some c) Y cap = None).
  rewrite rx_star_cls. apply star_greedy_fails; [reflexivity | | exact HY].
  intros pr x s cp Hx. cbn [rx]. unfold not_rparen in Hx.
  destruct (Ascii.eqb x ")"); [discriminate | reflexivity].
Qed.

Lemma wrapper_tail_fails (prev : option ascii) (Y : list ascii) (cap : capture) :
  forallb not_rparen Y = true -> rx wrapper_tail report prev Y cap = None.
Proof.
  intros HY. unfold wrapper_tail. cbn [seq].
  destruct Y as [| c Y]; [reflexivity |].
  simpl in HY. apply andb_true_iff in HY as [_ HY].
  cbn [rx]. destruct (Ascii.eqb c "("); [| reflexivity].
  apply (group_then_rparen_fails report (Some c) Y cap HY).
Qed.

(** A text without a closing parenthesis passes both wrapper
    substitutions unchanged. *)
Lemma wrappers_need_rparen (s : string) :
  forallb not_rparen (chars s) = true ->
  re_sub_group inject_wrapper_pattern s = s
  /\ re_sub_group evaluate_wrapper_pattern s = s.
Proof.
  intros Hs.
  assert (Hp1 : chars "INJECT" <> []) by discriminate.
  assert (Hp2 : chars "_FROM_PREVIOUS" <> []) by discriminate.
  assert (Hp3 : chars "evaluate(" <> []) by discriminate.
  split.
  - change inject_wrapper_pattern
      with (Cat Bol (Cat (lit "INJECT")
                       (Cat (opt (lit "_FROM_PREVIOUS")) wrapper_tail))).
    apply sub_without_match. unfold match_here, opt, lit.
    change (fun (_ : option ascii) (rest : list ascii) (cap : capture) =>
              Some (rest, cap)) with report.
    cbn [rx].
    destruct (strip_prefix (chars "INJECT") (chars s)) as [s2 |] eqn:E1;
      [| apply rx_lit_mismatch; exact E1].
    rewrite (rx_lit_match _ Hp1 _ _ _ _ _ E1).
    pose proof (no_rparen_suffix _ _ _ E1 Hs) as H2.
    destruct (strip_prefix (chars "_FROM_PREVIOUS") s2) as [s3 |] eqn:E2.
    + rewrite (rx_lit_match _ Hp2 _ _ _ _ _ E2).
      rewrite (wrapper_tail_fails _ s3 None (no_rparen_suffix _ _ _ E2 H2)).
      apply wrapper_tail_fails. exact H2.
    + rewrite (rx_lit_mismatch _ _ _ _ _ E2).
      apply wrapper_tail_fails. exact H2.
  - change evaluate_wrapper_pattern
      with (Cat Bol (Cat (lit "evaluate(")
                       (Cat (Grp (plus (Cls any_but_newline)))
                          (Cat (Chr ")") Eol)))).
    apply sub_without_match. unfold match_here, lit.
    change (fun (_ : option ascii) (rest : list ascii) (cap : capture) =>
              Some (rest, cap)) with report.
    remember (Cat (Grp (plus (Cls any_but_newline))) (Cat (Chr ")") Eol))
      as T eqn:HT.
    cbn [rx].
    destruct (strip_prefix (chars "evaluate(") (chars s)) as [s2 |] eqn:E1;
      [| apply rx_lit_mismatch; exact E1].
    rewrite (rx_lit_match _ Hp3 _ _ _ _ _ E1). subst T.
    apply (group_then_rparen_fails report
             (prev_after None (chars "evaluate(")) s2 None).
    apply (no_rparen_suffix _ _ _ E1 Hs).
Qed.

Lemma inner_tail_matches (Y rest : list ascii) (prev : option ascii) :
  Y <> [] -> forallb not_rparen Y = true ->
  rx inner_tail report prev (Y ++ ")"%char :: rest) None = Some (rest, Some Y).
Proof.
  intros Hne HY. unfold inner_tail.
  change (rx (Grp (plus (Cls not_rparen))) (rx (Chr ")") report) prev
            (Y ++ ")"%char :: rest) None = Some (rest, Some Y)).
  apply rx_group_plus_stops; try assumption; reflexivity.
Qed.

Lemma evaluate_inner_matches (Y rest : list ascii) (prev : option ascii) :
  Y <> [] -> forallb not_rparen Y = true ->
  match_here evaluate_inner_pattern prev
    (chars "evaluate(" ++ Y ++ ")"%char :: rest)
  = Some (rest, Some Y).
Proof.
  intros Hne HY. unfold match_here.
  change evaluate_inner_pattern with (Cat (lit "evaluate(") inner_tail).
  change (fun (_ : option ascii) (rest : list ascii) (cap : capture) =>
            Some (rest, cap)) with report.
  pose proof (inner_tail_matches Y rest) as Htail.
  remember inner_tail as T eqn:HT.
  cbn -[report]. apply Htail; assumption.
Qed.

(** X25. [INJECT(evaluate(x))] and [INJECT_FROM_PREVIOUS(evaluate(x))]
    unwrap to [x], for every non-empty [x] without a closing
    parenthesis. *)
Theorem unwrap_inject_of_evaluate (x : string) :
  x <> EmptyString ->
  forallb not_rparen (chars x) = true ->
  unwrap ("INJECT(evaluate(" ++ x ++ "))") = x
  /\ unwrap ("INJECT_FROM_PREVIOUS(evaluate(" ++ x ++ "))") = x.
Proof.
  intros Hne Hx.
  assert (HX : chars x <> []) by (destruct x; [contradiction | discriminate]).
  pose proof (evaluate_inner_matches (chars x) [")"%char] (Some "("%char) HX Hx)
    as Hm.
  destruct (wrappers_need_rparen x Hx) as [Hinject Hevaluate].
  split; unfold unwrap.
  - assert (Hchars : chars ("INJECT(evaluate(" ++ x ++ "))")
                     = chars "INJECT(" ++ chars "evaluate(" ++ chars x
                       ++ [")"%char; ")"%char])
      by (rewrite !chars_app; reflexivity).
    assert (Hin : str_in "evaluate(" ("INJECT(evaluate(" ++ x ++ "))") = true)
      by (unfold str_in; rewrite Hchars; reflexivity).
    rewrite Hin. unfold re_search. rewrite Hchars.
    remember evaluate_inner_pattern as r eqn:Hr.
    assert (Hskip : forall prev c l, Ascii.eqb c "e" = false ->
                      match_here r prev (c :: l) = None).
    { intros prev c l Hc. subst r. unfold match_here.
      change evaluate_inner_pattern with (Cat (lit "evaluate(") inner_tail).
      remember inner_tail as T. cbn. rewrite Hc. reflexivity. }
    cbn [app chars list_ascii_of_string search_from].
    rewrite !Hskip by reflexivity.
    change ("e"%char :: "v"%char :: "a"%char :: "l"%char :: "u"%char
            :: "a"%char :: "t"%char :: "e"%char :: "("%char
            :: chars x ++ [")"%char; ")"%char])
      with (chars "evaluate(" ++ chars x ++ ")"%char :: [")"%char]).
    subst r. rewrite Hm. cbn [group_1 group1].
    rewrite text_chars, Hinject. exact Hevaluate.
  - assert (Hchars : chars ("INJECT_FROM_PREVIOUS(evaluate(" ++ x ++ "))")
                     = chars "INJECT_FROM_PREVIOUS(" ++ chars "evaluate("
                       ++ chars x ++ [")"%char; ")"%char])
      by (rewrite !chars_app; reflexivity).
    assert (Hin : str_in "evaluate("
                    ("INJECT_FROM_PREVIOUS(evaluate(" ++ x ++ "))") = true)
      by (unfold str_in; rewrite Hchars; reflexivity).
    rewrite Hin. unfold re_search. rewrite Hchars.
    remember evaluate_inner_pattern as r eqn:Hr.
    assert (Hskip : forall prev c l, Ascii.eqb c "e" = false ->
                      match_here r prev (c :: l) = None).
    { intros prev c l Hc. subst r. unfold match_here.
      change evaluate_inner_pattern with (Cat (lit "evaluate(") inner_tail).
      remember inner_tail as T. cbn. rewrite Hc. reflexivity. }
    cbn [app chars list_ascii_of_string search_from].
    rewrite !Hskip by reflexivity.
    change ("e"%char :: "v"%char :: "a"%char :: "l"%char :: "u"%char
            :: "a"%char :: "t"%char :: "e"%char :: "("%char
            :: chars x ++ [")"%char; ")"%char])
      with (chars "evaluate(" ++ chars x ++ ")"%char :: [")"%char]).
    subst r. rewrite Hm. cbn [group_1 group1].
    rewrite text_chars, Hinject. exact Hevaluate.
Qed.

Lemma unwrap_inject_of_evaluate_witness :
  unwrap "INJECT(evaluate(total/2))" = "total/2"
  /\ unwrap "INJECT_FROM_PREVIOUS(evaluate(total/2))" = "total/2".
Proof.
  apply (unwrap_inject_of_evaluate "total/2").
  - discriminate.
  - vm_compute. reflexivity.
Defined.

(** With [evaluate] outside, the search for [evaluate\(([^)]+)\)] stops at
    the first closing parenthesis and leaves the opening of the inner
    wrapper in the expression. *)
Lemma unwrap_evaluate_of_inject (x rest : string) :
  forallb not_rparen (chars x) = true ->
  unwrap ("evaluate(INJECT(" ++ x ++ ")" ++ rest) = ("INJECT(" ++ x)%string.
Proof.
  intros Hx. unfold unwrap.
  assert (Hchars : chars ("evaluate(INJECT(" ++ x ++ ")" ++ rest)
                   = chars "evaluate(" ++ (chars "INJECT(" ++ chars x)
                     ++ ")"%char :: chars rest)
    by (rewrite !chars_app, <- !app_assoc; reflexivity).
  assert (Hin : str_in "evaluate(" ("evaluate(INJECT(" ++ x ++ ")" ++ rest) = true)
    by (unfold str_in; rewrite Hchars; reflexivity).
  assert (HY : forallb not_rparen (chars "INJECT(" ++ chars x) = true)
    by (rewrite forallb_app, Hx; reflexivity).
  assert (Hm : match_here evaluate_inner_pattern None
                 (chars "evaluate(" ++ (chars "INJECT(" ++ chars x)
                  ++ ")"%char :: chars rest)
               = Some (chars rest, Some (chars "INJECT(" ++ chars x)))
    by (apply evaluate_inner_matches; [discriminate | exact HY]).
  rewrite Hin. unfold re_search. rewrite Hchars.
  change (chars "evaluate(" ++ (chars "INJECT(" ++ chars x)
          ++ ")"%char :: chars rest)
    with ("e"%char :: (chars "valuate(" ++ (chars "INJECT(" ++ chars x)
                       ++ ")"%char :: chars rest)) in *.
  cbn [search_from]. rewrite Hm. cbn [group_1 group1].
  assert (Htext : text (chars "INJECT(" ++ chars x) = ("INJECT(" ++ x)%string)
    by (rewrite <- chars_app; apply text_chars).
  rewrite Htext.
  assert (Hno : forallb not_rparen (chars ("INJECT(" ++ x)) = true)
    by (rewrite chars_app; exact HY).
  destruct (wrappers_need_rparen _ Hno) as [-> ->]. reflexivity.
Qed.

Lemma firstn_front_cons (a : ascii) (A B : list ascii) :
  firstn (List.length (a :: A ++ B) - List.length B) (a :: A ++ B) = a :: A.
Proof. apply (firstn_front (a :: A) B). Qed.

(** The first match of a scan, when a match is found where the scan
    starts. *)
Lemma scan_first (r : regex) (fuel : nat) (prev : option ascii) (a : ascii)
  (A B : list ascii) (cap : capture) :
  match_here r prev (a :: A ++ B) = Some (B, cap) ->
  exists more tl,
    scan r (S fuel) prev [] (a :: A ++ B)
    = (mkFound [] (a :: A) B cap :: more, tl).
Proof.
  intros Hm. cbn [scan search_from]. rewrite Hm.
  rewrite firstn_front_cons. cbn [rev matched after].
  destruct (scan r fuel (Some (last (a :: A) newline)) [] B) as [more tl].
  exists more, tl. reflexivity.
Qed.

Lemma identifier_at_start (X : list ascii) :
  match_here identifier_pattern None (chars "INJECT" ++ "("%char :: X)
  = Some ("("%char :: X, Some (chars "INJECT")).
Proof.
  unfold match_here.
  change identifier_pattern
    with (Cat Wordb (Cat (Grp (Cat (Cls ident_start) (Star (Cls ident_part))))
                       Wordb)).
  change (fun (_ : option ascii) (rest : list ascii) (cap : capture) =>
            Some (rest, cap)) with report.
  change (rx (Star (Cls ident_part))
            (fun prev' s' _ =>
               rx Wordb report prev' s'
                 (Some (firstn (List.length (chars "INJECT" ++ "("%char :: X)
                                - List.length s')
                          (chars "INJECT" ++ "("%char :: X))))
            (Some "I"%char) (chars "NJECT" ++ "("%char :: X) None
          = Some ("("%char :: X, Some (chars "INJECT"))).
  rewrite rx_star_cls.
  apply (star_greedy_stops ident_part _ "("%char X None _ eq_refl
           (chars "NJECT") (Some "I"%char) eq_refl).
  cbn [rx prev_after fold_left chars list_ascii_of_string].
  change (word_at (Some "T"%char)) with true.
  change (word_at (hd_error ("("%char :: X))) with false.
  cbn [xorb]. unfold report.
  rewrite (firstn_front
             ["I"%char; "N"%char; "J"%char; "E"%char; "C"%char; "T"%char]
             ("("%char :: X)).
  reflexivity.
Qed.

(** X26. With the wrappers in the other order the expression is never
    evaluated: for an expression that starts with [evaluate(INJECT(],
    whatever follows the first closing parenthesis and whatever the
    interpreter, the result is the default 1, because the name [INJECT]
    is left in the expression and counts as a missing variable (unless a
    binding bears that name). *)
Theorem evaluate_of_inject_gives_default (py : interpreter) (x rest : string)
  (previous_results : bindings) :
  forallb not_rparen (chars x) = true ->
  dict_mem "INJECT" previous_results = false ->
  In "INJECT"
    (missing_vars (unwrap ("evaluate(INJECT(" ++ x ++ ")" ++ rest))
       previous_results)
  /\ _evaluate_injection py ("evaluate(INJECT(" ++ x ++ ")" ++ rest)
       previous_results
     = Ok (VInt 1).
Proof.
  intros Hx Hfree.
  assert (Hmiss : exists more,
            missing_vars (unwrap ("evaluate(INJECT(" ++ x ++ ")" ++ rest))
              previous_results = "INJECT" :: more).
  { rewrite (unwrap_evaluate_of_inject x rest Hx).
    unfold missing_vars, required_vars, re_findall_group, scan_all.
    assert (Hchars : chars ("INJECT(" ++ x)
                     = "I"%char :: chars "NJECT" ++ "("%char :: chars x)
      by (rewrite chars_app; reflexivity).
    rewrite Hchars.
    destruct (scan_first identifier_pattern (String.length ("INJECT(" ++ x))
                None "I"%char (chars "NJECT") ("("%char :: chars x)
                (Some (chars "INJECT")) (identifier_at_start (chars x)))
      as [more [tl ->]].
    cbn [fst map filter group_1 group1].
    change (text (chars "INJECT")) with "INJECT".
    rewrite Hfree. cbn. eexists. reflexivity. }
  destruct Hmiss as [more Hmiss]. split.
  - rewrite Hmiss. left. reflexivity.
  - rewrite evaluate_injection_unfold, Hmiss. reflexivity.
Qed.

Lemma evaluate_of_inject_gives_default_witness :
  In "INJECT"
    (missing_vars (unwrap "evaluate(INJECT(total/2))") [("total", VInt 10882)])
  /\ _evaluate_injection table_py "evaluate(INJECT(total/2))"
       [("total", VInt 10882)]
     = Ok (VInt 1).
Proof.
  apply (evaluate_of_inject_gives_default table_py "total/2" ")"
           [("total", VInt 10882)]).
  - vm_compute. reflexivity.
  - reflexivity.
Defined.

(** ** The stream, sequential branch *)

Lemma executed_plan_not_empty (py : interpreter) {VS : Type}
  (execute_query : VS -> string -> py_result response * VS)
  (plan : list plan_step) (w w' : VS) (results : response) (log : list call) :
  _execute_sequential_queries py execute_query plan w = (Ok results, w', log) ->
  result_count results <> 0 ->
  truthy results = true /\ Nat.eqb (List.length plan) 0 = false.
Proof.
  intros Hexec Hcount. split.
  - destruct (truthy results) eqn:Ht; [reflexivity |].
    apply not_truthy_no_results in Ht. contradiction.
  - destruct plan; [| reflexivity].
    unfold _execute_sequential_queries in Hexec. simpl in Hexec.
    injection Hexec as <- _ _. contradiction Hcount. reflexivity.
Qed.

(** X27. When a sequential plan has run and its final response is not
    empty, the stream goes from the execution status straight to the
    contextualisation, which is given [json.dumps] of the plan as the
    query and the final response as the results; the plan has been handed
    to the cache before. *)
Theorem sequential_success_stream (py : interpreter) {VS : Type}
  (env : collaborators VS) (request : NLQueryRequest) (w w' : VS)
  (cached_data : option string) (sparql_query : string)
  (plan : list plan_step) (st1 : stream VS) (results : response)
  (log : list call) :
  get_cached_query env (cache_key request) = Ok cached_data ->
  stage1 env (effective_query request) cached_data (started w)
  = (Next (true, sparql_query, plan), st1) ->
  _execute_sequential_queries py (execute_query env) plan w
  = (Ok results, w', log) ->
  result_count results <> 0 ->
  cache_query env (effective_query request) (json_dumps env plan) = Ok tt ->
  run_stream py env request w
  = (Next tt,
     mkStream
       (frames st1
        ++ [StatusMessage.executing_query; StatusMessage.processing_results]
        ++ answer_frames env (effective_query request) (json_dumps env plan)
             (Some results)
        ++ [StatusMessage.data_done])
       [(effective_query request, json_dumps env plan)] w' log).
Proof.
  intros Hcache Hstage1 Hexec Hcount Hstore.
  destruct (executed_plan_not_empty py (execute_query env) plan w w' results
              log Hexec Hcount) as [Ht Hplan].
  rewrite (sequential_stream py env request w cached_data sparql_query plan
             st1 (Ok results) w' log Hcache Hstage1 Hexec).
  cbv beta zeta. apply Nat.eqb_neq in Hcount.
  rewrite Ht, Hcount, Hstore, Hplan. cbn [negb].
  rewrite <- !app_assoc. reflexivity.
Qed.

Lemma sequential_success_stream_witness :
  run_stream table_py (cache_hit_env counting_store) epochs_request tt
  = (Next tt,
     mkStream
       [StatusMessage.processing_query; StatusMessage.executing_query;
        StatusMessage.processing_results; ("answer" ++ StatusMessage.nl)%string;
        StatusMessage.data_done]
       [("how many epochs?", plan_text)] tt
       [(count_query, Ok (one_row "total" "10882"));
        ("SELECT ?s WHERE { ?s ?p ?o } LIMIT 5441",
         Ok (one_row "s" "http://example.org/s"))]).
Proof.
  apply (sequential_success_stream table_py (cache_hit_env counting_store)
           epochs_request tt tt (Some plan_text) EmptyString two_step_plan
           (started tt) (one_row "s" "http://example.org/s")).
  - reflexivity.
  - reflexivity.
  - vm_compute. reflexivity.
  - vm_compute. discriminate.
  - reflexivity.
Defined.

(** X28. When the cache refuses a sequential plan that has run, the
    results of the plan are dropped: the stream still reaches the
    contextualisation, but with no results and with the query text the
    first stage left, as after a failed execution. *)
Theorem sequential_cache_failure_drops_results (py : interpreter) {VS : Type}
  (env : collaborators VS) (request : NLQueryRequest) (w w' : VS)
  (cached_data : option string) (sparql_query : string)
  (plan : list plan_step) (st1 : stream VS) (results : response)
  (log : list call) (e : exn) :
  get_cached_query env (cache_key request) = Ok cached_data ->
  stage1 env (effective_query request) cached_data (started w)
  = (Next (true, sparql_query, plan), st1) ->
  _execute_sequential_queries py (execute_query env) plan w
  = (Ok results, w', log) ->
  result_count results <> 0 ->
  cache_query env (effective_query request) (json_dumps env plan) = Raise e ->
  run_stream py env request w
  = (Next tt,
     mkStream
       (frames st1
        ++ [StatusMessage.executing_query; StatusMessage.processing_results]
        ++ answer_frames env (effective_query request) sparql_query None
        ++ [StatusMessage.data_done])
       [(effective_query request, json_dumps env plan)] w' log).
Proof.
  intros Hcache Hstage1 Hexec Hcount Hstore.
  destruct (executed_plan_not_empty py (execute_query env) plan w w' results
              log Hexec Hcount) as [Ht _].
  rewrite (sequential_stream py env request w cached_data sparql_query plan
             st1 (Ok results) w' log Hcache Hstage1 Hexec).
  cbv beta zeta. apply Nat.eqb_neq in Hcount.
  rewrite Ht, Hcount, Hstore. rewrite <- !app_assoc. reflexivity.
Qed.

Lemma sequential_cache_failure_drops_results_witness :
  run_stream table_py cache_refusing_env epochs_request tt
  = (Next tt,
     mkStream
       [StatusMessage.processing_query; StatusMessage.executing_query;
        StatusMessage.processing_results; ("answer" ++ StatusMessage.nl)%string;
        StatusMessage.data_done]
       [("how many epochs?", plan_text)] tt
       [(count_query, Ok (one_row "total" "10882"));
        ("SELECT ?s WHERE { ?s ?p ?o } LIMIT 5441",
         Ok (one_row "s" "http://example.org/s"))]).
Proof.
  apply (sequential_cache_failure_drops_results table_py cache_refusing_env
           epochs_request tt tt (Some plan_text) EmptyString two_step_plan
           (started tt) (one_row "s" "http://example.org/s")
           [(count_query, Ok (one_row "total" "10882"));
            ("SELECT ?s WHERE { ?s ?p ?o } LIMIT 5441",
             Ok (one_row "s" "http://example.org/s"))]
           (mkExn "ConnectionError" "cache unreachable")).
  - reflexivity.
  - reflexivity.
  - vm_compute. reflexivity.
  - vm_compute. discriminate.
  - reflexivity.
Defined.

Lemma top_queries_ranked_in_order_witness :
  exists top,
    TopQueries.get_top_queries (fun _ => Ok two_popular) 5 = TopQueries.Body top
    /\ List.length top = 2.
Proof.
  destruct (top_queries_ranked_in_order (fun _ => Ok two_popular) 5)
    as [H _].
  destruct (H two_popular eq_refl) as [top [Hbody [Hlen _]]].
  exists top. split; assumption.
Defined.
